(** * Article-analysis pipeline: a shallow embedding of [agents.py] and [main.py]

    The development follows the two source files.

    - [Py]     : the Python values the code manipulates (text as a sequence of
                 code points, [str.strip], [len], truthiness).
    - [Json]   : the JSON values and [json.loads], written after the standard
                 decoder ([json/decoder.py], [json/scanner.py]).
    - [Re]     : the one regular expression of [extract_json_from_response].
    - [Agents] : [agents.py]: extractor, prompt builder, the three steps and
                 the task graph.
    - [Main]   : [main.py]: [analyze_text] and the [/analyze] handler.

    What lies outside the repository (the rendering of a prompt template by
    langchain, the provider calls, [json.dumps]) is an explicit environment
    [Env], over which every statement is quantified. *)

From Stdlib Require Import List NArith ZArith String Ascii Bool Lia.
Import ListNotations.

Set Warnings "-register-all".

#[local] Open Scope N_scope.

(* ================================================================= *)
(** ** Python text *)

Module Py.

(** A Python [str] is a sequence of code points. *)
Definition pystr := list N.

(** An ASCII literal of the source, as a [str]. *)
Definition py (s : string) : pystr :=
  map N_of_ascii (list_ascii_of_string s).

Fixpoint str_eqb (a b : pystr) : bool :=
  match a, b with
  | [], [] => true
  | x :: a', y :: b' => (x =? y) && str_eqb a' b'
  | _, _ => false
  end.

(** [s.startswith(p)], returning what follows the prefix. *)
Fixpoint strip_prefix (p s : pystr) : option pystr :=
  match p with
  | [] => Some s
  | x :: p' =>
      match s with
      | [] => None
      | y :: s' => if x =? y then strip_prefix p' s' else None
      end
  end.

(** [str.isspace] on one code point: the white-space table of CPython
    ([_PyUnicode_IsWhitespace]). *)
Definition isspace (c : N) : bool :=
  ((9 <=? c) && (c <=? 13)) || ((28 <=? c) && (c <=? 32))
  || (c =? 133) || (c =? 160) || (c =? 5760)
  || ((8192 <=? c) && (c <=? 8202))
  || (c =? 8232) || (c =? 8233) || (c =? 8239) || (c =? 8287)
  || (c =? 12288).

Fixpoint lstrip (s : pystr) : pystr :=
  match s with
  | c :: t => if isspace c then lstrip t else s
  | [] => []
  end.

Definition rstrip (s : pystr) : pystr := rev (lstrip (rev s)).

(** [s.strip()] with no argument. *)
Definition strip (s : pystr) : pystr := rstrip (lstrip s).

(** [len(s)]. *)
Definition len (s : pystr) : Z := Z.of_nat (List.length s).

End Py.

(* ================================================================= *)
(** ** JSON values and [json.loads] *)

Module Json.
Import Py.

(** The values [json.loads] builds.  An integer literal becomes a Python
    [int]; a literal with a fraction or an exponent, and the constants
    [NaN], [Infinity], [-Infinity], become a [float], kept here as the text
    that denotes it.  A [dict] keeps its keys in insertion order. *)
Inductive json : Type :=
| JNull
| JBool (b : bool)
| JInt (z : Z)
| JFloat (lexeme : pystr)
| JStr (s : pystr)
| JArr (items : list json)
| JObj (members : list (pystr * json)).

(** [isinstance(v, dict)]. *)
Definition is_mapping (v : json) : bool :=
  match v with JObj _ => true | _ => false end.

(** [d[k] = v] on the member list of a [dict]: an existing key keeps its
    place and takes the new value, a new key goes last. *)
Fixpoint dict_set (d : list (pystr * json)) (k : pystr) (v : json)
  : list (pystr * json) :=
  match d with
  | [] => [(k, v)]
  | (k', v') :: d' =>
      if str_eqb k' k then (k', v) :: d' else (k', v') :: dict_set d' k v
  end.

(** [dict(pairs)]. *)
Definition dict_of_pairs (pairs : list (pystr * json)) : list (pystr * json) :=
  fold_left (fun d kv => dict_set d (fst kv) (snd kv)) pairs [].

(** *** Lexical elements *)

(** [WHITESPACE]: any run of space, tab, line feed, carriage return. *)
Definition is_ws (c : N) : bool :=
  (c =? 32) || (c =? 9) || (c =? 10) || (c =? 13).

Fixpoint skip_ws (s : pystr) : pystr :=
  match s with
  | c :: t => if is_ws c then skip_ws t else s
  | [] => []
  end.

Definition is_digit (c : N) : bool := (48 <=? c) && (c <=? 57).

(** The longest run of digits at the head of [s], and what follows it. *)
Fixpoint span_digits (s : pystr) : pystr * pystr :=
  match s with
  | c :: t =>
      if is_digit c then let (ds, r) := span_digits t in (c :: ds, r)
      else ([], s)
  | [] => ([], [])
  end.

(** [int(digits)]. *)
Definition int_of_digits (ds : pystr) : Z :=
  fold_left (fun acc c => (10 * acc + Z.of_N (c - 48))%Z) ds 0%Z.

Definition hex_digit (c : N) : option N :=
  if is_digit c then Some (c - 48)
  else if (65 <=? c) && (c <=? 70) then Some (c - 55)
  else if (97 <=? c) && (c <=? 102) then Some (c - 87)
  else None.

(** [_decode_uXXXX]: four hexadecimal digits. *)
Definition hex4 (a b c d : N) : option N :=
  match hex_digit a, hex_digit b, hex_digit c, hex_digit d with
  | Some x, Some y, Some z, Some w => Some (((x * 16 + y) * 16 + z) * 16 + w)
  | _, _, _, _ => None
  end.

(** The [BACKSLASH] table of the decoder. *)
Definition unescape (e : N) : option N :=
  if e =? 34 then Some 34          (* quote *)
  else if e =? 92 then Some 92     (* backslash *)
  else if e =? 47 then Some 47     (* slash *)
  else if e =? 98 then Some 8      (* b: backspace *)
  else if e =? 102 then Some 12    (* f: form feed *)
  else if e =? 110 then Some 10    (* n: line feed *)
  else if e =? 114 then Some 13    (* r: carriage return *)
  else if e =? 116 then Some 9     (* t: tab *)
  else None.

Definition is_high_surrogate (u : N) : bool := (55296 <=? u) && (u <=? 56319).
Definition is_low_surrogate (u : N) : bool := (56320 <=? u) && (u <=? 57343).

Definition cons_fst {A B} (a : A) (r : option (list A * B)) : option (list A * B) :=
  match r with
  | Some (l, b) => Some (a :: l, b)
  | None => None
  end.

(** [scanstring] in strict mode, entered after the opening quote: the decoded
    text and what follows the closing quote; [None] where the decoder raises
    (unterminated string, control character, bad escape). *)
Fixpoint scanstring (s : pystr) : option (pystr * pystr) :=
  match s with
  | [] => None
  | c :: t =>
      if c =? 34 then Some ([], t)
      else if c =? 92 then
        match t with
        | [] => None
        | e :: t1 =>
            if e =? 117 then
              match t1 with
              | h1 :: h2 :: h3 :: h4 :: t2 =>
                  match hex4 h1 h2 h3 h4 with
                  | None => None
                  | Some uni =>
                      if is_high_surrogate uni then
                        match t2 with
                        | b :: u :: g1 :: g2 :: g3 :: g4 :: t3 =>
                            if (b =? 92) && (u =? 117) then
                              match hex4 g1 g2 g3 g4 with
                              | None => None
                              | Some uni2 =>
                                  if is_low_surrogate uni2 then
                                    cons_fst
                                      (65536 + (N.lor (N.shiftl (uni - 55296) 10)
                                                      (uni2 - 56320)))
                                      (scanstring t3)
                                  else cons_fst uni (scanstring t2)
                              end
                            else cons_fst uni (scanstring t2)
                        | _ => cons_fst uni (scanstring t2)
                        end
                      else cons_fst uni (scanstring t2)
                  end
              | _ => None
              end
            else
              match unescape e with
              | Some ch => cons_fst ch (scanstring t1)
              | None => None
              end
        end
      else if c <? 32 then None
      else cons_fst c (scanstring t)
  end.

(** [NUMBER_RE] matched at the head of [s].  Its three groups are: an
    optional minus sign and either a lone zero or a non-zero digit followed by
    digits; optionally a dot and at least one digit; optionally [e] or [E],
    an optional sign and at least one digit.  Each function returns its group
    and what follows it. *)
Definition match_integer (s : pystr) : option (pystr * pystr) :=
  let body (sign : pystr) (r : pystr) :=
    match r with
    | c :: t =>
        if c =? 48 then Some (sign ++ [c], t)
        else if is_digit c then
          let (ds, r') := span_digits t in Some (sign ++ c :: ds, r')
        else None
    | [] => None
    end in
  match s with
  | c :: t => if c =? 45 then body [c] t else body [] s
  | [] => None
  end.

Definition match_frac (s : pystr) : pystr * pystr :=
  match s with
  | c :: t =>
      if c =? 46 then
        match span_digits t with
        | ([], _) => ([], s)
        | (ds, r) => (c :: ds, r)
        end
      else ([], s)
  | [] => ([], s)
  end.

Definition match_exp (s : pystr) : pystr * pystr :=
  match s with
  | c :: t =>
      if (c =? 101) || (c =? 69) then
        let (sign, t') :=
          match t with
          | d :: t'' => if (d =? 43) || (d =? 45) then ([d], t'') else ([], t)
          | [] => ([], t)
          end in
        match span_digits t' with
        | ([], _) => ([], s)
        | (ds, r) => (c :: sign ++ ds, r)
        end
      else ([], s)
  | [] => ([], s)
  end.

Definition int_of_lexeme (l : pystr) : Z :=
  match l with
  | c :: ds => if c =? 45 then (- int_of_digits ds)%Z else int_of_digits l
  | [] => 0%Z
  end.

Definition match_number (s : pystr) : option (json * pystr) :=
  match match_integer s with
  | None => None
  | Some (integer, r1) =>
      let (frac, r2) := match_frac r1 in
      let (exp, r3) := match_exp r2 in
      match frac, exp with
      | [], [] => Some (JInt (int_of_lexeme integer), r3)
      | _, _ => Some (JFloat (integer ++ frac ++ exp), r3)
      end
  end.

(** [string[idx:idx + n] == lit], returning the value and the rest. *)
Definition literal (lit : string) (v : json) (s : pystr) : option (json * pystr) :=
  match strip_prefix (py lit) s with
  | Some r => Some (v, r)
  | None => None
  end.

Definition or_else {A} (a b : option A) : option A :=
  match a with Some _ => a | None => b end.

(** The cases of [scan_once] that read neither a string nor a container, in
    the order the scanner tries them. *)
Definition scan_scalar (s : pystr) : option (json * pystr) :=
  or_else (literal "null" JNull s)
 (or_else (literal "true" (JBool true) s)
 (or_else (literal "false" (JBool false) s)
 (or_else (match_number s)
 (or_else (literal "NaN" (JFloat (py "NaN")) s)
 (or_else (literal "Infinity" (JFloat (py "Infinity")) s)
          (literal "-Infinity" (JFloat (py "-Infinity")) s)))))).

(** *** The scanner

    [scan_once] with [JSONArray] and [JSONObject].  The three functions call
    one another; [fuel] bounds the depth of that recursion. *)
Fixpoint scan_once (fuel : nat) (s : pystr) {struct fuel}
  : option (json * pystr) :=
  match fuel with
  | O => None
  | S f =>
      match s with
      | [] => None
      | c :: t =>
          if c =? 34 then
            match scanstring t with
            | Some (str, r) => Some (JStr str, r)
            | None => None
            end
          else if c =? 123 then
            (* JSONObject *)
            match skip_ws t with
            | d :: r =>
                if d =? 125 then Some (JObj [], r)
                else if d =? 34 then object_members f r []
                else None
            | [] => None
            end
          else if c =? 91 then
            (* JSONArray *)
            match skip_ws t with
            | d :: r =>
                if d =? 93 then Some (JArr [], r)
                else array_items f (d :: r) []
            | [] => None
            end
          else scan_scalar s
      end
  end

(** The loop of [JSONArray], entered at a value; [acc] holds the values read
    so far, last first. *)
with array_items (fuel : nat) (s : pystr) (acc : list json) {struct fuel}
  : option (json * pystr) :=
  match fuel with
  | O => None
  | S f =>
      match scan_once f s with
      | None => None
      | Some (v, r) =>
          match skip_ws r with
          | d :: r' =>
              if d =? 93 then Some (JArr (rev (v :: acc)), r')
              else if d =? 44 then array_items f (skip_ws r') (v :: acc)
              else None
          | [] => None
          end
      end
  end

(** The loop of [JSONObject], entered after the opening quote of a key;
    [acc] holds the pairs read so far, last first. *)
with object_members (fuel : nat) (s : pystr) (acc : list (pystr * json))
  {struct fuel} : option (json * pystr) :=
  match fuel with
  | O => None
  | S f =>
      match scanstring s with
      | None => None
      | Some (key, r) =>
          match skip_ws r with
          | d :: r1 =>
              if d =? 58 then
                match scan_once f (skip_ws r1) with
                | None => None
                | Some (v, r2) =>
                    match skip_ws r2 with
                    | e :: r3 =>
                        if e =? 125 then
                          Some (JObj (dict_of_pairs (rev ((key, v) :: acc))), r3)
                        else if e =? 44 then
                          match skip_ws r3 with
                          | q :: r4 =>
                              if q =? 34 then object_members f r4 ((key, v) :: acc)
                              else None
                          | [] => None
                          end
                        else None
                    | [] => None
                    end
                end
              else None
          | [] => None
          end
      end
  end.

(** [json.loads(s)] for a [str]: [None] where it raises.  A leading byte-order
    mark is refused; white space may surround the one value; anything after
    it is "Extra data".  The interpreter's limits on recursion depth and on
    the number of digits of an integer are not part of the model. *)
Definition loads (s : pystr) : option json :=
  match s with
  | 65279 :: _ => None
  | _ =>
      match scan_once (2 * List.length s + 2) (skip_ws s) with
      | Some (v, r) =>
          match skip_ws r with
          | [] => Some v
          | _ :: _ => None
          end
      | None => None
      end
  end.

End Json.


(* ================================================================= *)
(** ** The regular expression of the extractor *)

Module Re.
Import Py Json.

(** Three backticks. *)
Definition ticks : pystr := [96; 96; 96].

(** A line feed and three backticks: what ends the group. *)
Definition closing : pystr := 10 :: ticks.

(** The first occurrence of [pat] in [s]: the text before it and the text
    after it. *)
Fixpoint split_first (pat s : pystr) : option (pystr * pystr) :=
  match strip_prefix pat s with
  | Some r => Some ([], r)
  | None =>
      match s with
      | [] => None
      | c :: t => cons_fst c (split_first pat t)
      end
  end.

(** The pattern of [extract_json_from_response], compiled with [re.DOTALL],
    matched at the head of [s]: three backticks, optionally the word [json],
    a line feed, a group that takes as few characters as possible (line feeds
    included), a line feed, three backticks.  The result is group 1.

    The optional word is tried first; as it does not begin with a line feed,
    giving it back can never help, so the choice is decided by the text. *)
Definition match_here (s : pystr) : option pystr :=
  match strip_prefix ticks s with
  | None => None
  | Some r =>
      let r' := match strip_prefix (py "json") r with
                | Some r2 => r2
                | None => r
                end in
      match r' with
      | c :: body =>
          if c =? 10 then option_map fst (split_first closing body) else None
      | [] => None
      end
  end.

(** [re.search(pattern, s, re.DOTALL)], reduced to [group(1)] of the match:
    the leftmost position at which the pattern matches. *)
Fixpoint search (s : pystr) : option pystr :=
  match match_here s with
  | Some g => Some g
  | None =>
      match s with
      | [] => None
      | _ :: t => search t
      end
  end.

End Re.

(* ================================================================= *)
(** ** Exceptions, the outside world and the monad of a run *)

Module Eff.
Import Py Json.

Inductive transport_kind := Network | Auth | RateLimit | TimedOut.

(** The exceptions that matter to the handlers of [main.py], by the class
    they are caught under; the text is [str(e)].  The connection,
    authentication, rate-limit and timeout errors of the two provider
    clients derive from [Exception] and not from [ValueError]. *)
Inductive exn : Type :=
| ValueError (msg : pystr)
| TransportError (k : transport_kind) (msg : pystr)
| OtherException (msg : pystr)
| BaseExceptionOnly (msg : pystr).

Definition exn_str (e : exn) : pystr :=
  match e with
  | ValueError m | TransportError _ m | OtherException m
  | BaseExceptionOnly m => m
  end.

Inductive Result (A : Type) : Type :=
| Ok (a : A)
| Raise (e : exn).
Arguments Ok {A} a.
Arguments Raise {A} e.

Inductive provider := OpenAI | Anthropic.

(** [ChatOpenAI(model=..., temperature=...)], [ChatAnthropic(...)]. *)
Record ChatModel := {
  provider_of : provider;
  model : pystr;
  temperature : Z
}.

Definition ChatOpenAI (model : pystr) (temperature : Z) : ChatModel :=
  {| provider_of := OpenAI; model := model; temperature := temperature |}.
Definition ChatAnthropic (model : pystr) (temperature : Z) : ChatModel :=
  {| provider_of := Anthropic; model := model; temperature := temperature |}.

(** A keyword argument of [format_messages]. *)
Inductive pyval := VStr (s : pystr) | VNone.

(** The three analysis keys of the state. *)
Inductive key := OpenaiAnalysis | AnthropicAnalysis | FinalComparison.

Definition key_name (k : key) : pystr :=
  match k with
  | OpenaiAnalysis => py "openai_analysis"
  | AnthropicAnalysis => py "anthropic_analysis"
  | FinalComparison => py "final_comparison"
  end.

Definition key_eqb (a b : key) : bool :=
  match a, b with
  | OpenaiAnalysis, OpenaiAnalysis
  | AnthropicAnalysis, AnthropicAnalysis
  | FinalComparison, FinalComparison => true
  | _, _ => false
  end.

(** What a run does that can be observed: a provider call, with the model and
    the messages it is given, and an assignment [state[k] = v]. *)
Inductive event : Type :=
| Invoke (llm : ChatModel) (prompt : pystr)
| SetItem (k : key) (v : json).

(** What the repository does not define.
    - [format_messages t kw]: the content of
      [ChatPromptTemplate.from_template(t).format_messages] applied to the
      keyword arguments [kw], or the exception either call raises;
    - [llm_invoke n llm p]: [llm.invoke(p).content] for the [n]-th provider
      call of the run, or the exception the call raises;
    - [json_dumps v]: [json.dumps(v, indent=2)]. *)
Record Env := {
  format_messages : pystr -> list (pystr * pyval) -> Result pystr;
  llm_invoke : nat -> ChatModel -> pystr -> Result pystr;
  json_dumps : json -> pystr
}.

(** The provider calls made so far and the events so far, oldest first. *)
Record World := {
  calls : nat;
  trace : list event
}.

Definition world0 : World := {| calls := 0; trace := [] |}.

(** A computation that may raise and that acts on the world. *)
Definition M (A : Type) : Type := World -> Result A * World.

Definition ret {A} (a : A) : M A := fun w => (Ok a, w).
Definition raise {A} (e : exn) : M A := fun w => (Raise e, w).
Definition bind {A B} (m : M A) (f : A -> M B) : M B :=
  fun w =>
    match m w with
    | (Ok a, w') => f a w'
    | (Raise e, w') => (Raise e, w')
    end.

(** A pure library call that may raise. *)
Definition lift {A} (r : Result A) : M A := fun w => (r, w).

Definition emit (e : event) : M unit :=
  fun w => (Ok tt, {| calls := calls w; trace := trace w ++ [e] |}).

End Eff.

Declare Scope run_scope.
Delimit Scope run_scope with run.
Notation "x <- m ;; k" := (Eff.bind m (fun x => k))
  (at level 61, m at next level, right associativity) : run_scope.
Notation "m ;;; k" := (Eff.bind m (fun _ => k))
  (at level 61, right associativity) : run_scope.

(* ================================================================= *)
(** ** [agents.py] *)

Module Agents.
Import Py Json Eff.
#[local] Open Scope run_scope.

(** [AgentState]: every key is present in the states [main.py] builds. *)
Record AgentState := {
  messages : list pystr;
  article : pystr;
  topic : option pystr;
  openai_analysis : json;
  anthropic_analysis : json;
  final_comparison : json
}.

(** The record the extractor falls back on. *)
Definition fallback (response_text : pystr) : json :=
  JObj [ (py "error", JStr (py "Failed to parse response"));
         (py "raw_response", JStr response_text) ].

(** [extract_json_from_response].  Both [try] blocks have a bare [except],
    so whatever [json.loads] raises leads to the next attempt. *)
Definition extract_json_from_response (response_text : pystr) : json :=
  let whole :=
    match loads response_text with
    | Some v => v
    | None => fallback response_text
    end in
  match Re.search response_text with
  | Some group1 =>
      match loads group1 with
      | Some v => v
      | None => whole
      end
  | None => whole
  end.

(** The three literal parts of the f-string of [create_analysis_prompt]. *)
Definition prompt_head : pystr := py "Analyze the following article and provide detailed, actionable feedback:

Article:
".

Definition prompt_before_topic : pystr := py "

Target Topic/Search Term: ".

Definition prompt_sections : pystr := py "

Please provide a structured analysis covering:

1. contentQuality:
   - depth: 
     * rating: (Excellent/Good/Fair/Poor)
     * analysis: How well does it explore the main ideas? What key aspects are missing?
     * missingElements: List specific missing elements
   - accuracy:
     * rating: (Excellent/Good/Fair/Poor) 
     * logicalIssues: Are the arguments logically sound? Any unsupported claims?
   - originality:
     * rating: (Excellent/Good/Fair/Poor)
     * uniqueElements: What makes this perspective unique or valuable?
     * limitations: What prevents it from being more original?

2. writingStyle:
   - clarity:
     * rating: (Excellent/Good/Fair/Poor)
     * issues: Are ideas presented logically? Any confusing sections?
   - engagement:
     * rating: (Excellent/Good/Fair/Poor)
     * weaknesses: What specific elements make it compelling or where does it fall flat?
   - flow:
     * rating: (Excellent/Good/Fair/Poor)
     * issues: How well do paragraphs connect? Where are transitions weak?

3. contentEnhancement:
   - keyTermsNeeded: What important concepts should be better explained?
   - examplesNeeded: Where could specific examples strengthen arguments?
   - counterArgumentsNeeded: What opposing viewpoints should be addressed?
   - supportingEvidenceNeeded: What data or research could reinforce points?

4. searchRankingAnalysis:
   - relevanceScore: (0-10) How well does this match the target topic?
   - currentRankingPrediction: Where would this rank on page 1-10+ for the topic?
   - competitorAnalysis: What type of content currently ranks well for this topic?
   - rankingImprovement: Specific changes needed to rank higher
   - searchIntent: Does this match what people searching for this topic want?
   - keywordGaps: What important keywords/phrases are missing?

5. improvementActions:
   - Each item should have: priority (High/Medium/Low), action, impact
   - Provide at least 5 concrete, actionable steps
   - Focus on changes that would improve search ranking AND content quality

6. qualityAssessment:
   - score: (0-100)
   - explanation: Brief explanation of the score
   - strengths: Top 3 strengths  
   - immediateImprovements: Top 3 areas needing immediate improvement

Format your response as a JSON object with these exact keys. Do not wrap the JSON in code blocks. Be specific and actionable in your suggestions, especially for search ranking improvements.".

Definition default_topic_context : pystr :=
  py "the main theme suggested by this content".

(** [topic if topic else ...]: [None] and the empty text are both false. *)
Definition topic_context (topic : option pystr) : pystr :=
  match topic with
  | Some (c :: t) => c :: t
  | Some [] | None => default_topic_context
  end.

Definition create_analysis_prompt (article : pystr) (topic : option pystr)
  : pystr :=
  prompt_head ++ article ++ prompt_before_topic ++ topic_context topic
  ++ prompt_sections.

(** The template of [compare_and_summarize]. *)
Definition comparison_template : pystr := py "Compare the following two analyses of an article and provide a comprehensive improvement plan:

OpenAI Analysis:
{openai_analysis}

Anthropic Analysis:
{anthropic_analysis}

Target Topic: {topic}

Please provide:

1. keyInsights:
   - agreement: Where do the analyses agree?
   - disagreement: Where do they differ significantly?
   - mostActionableFeedback: Which model provided more specific, actionable advice?

2. searchRankingStrategy:
   - currentPosition: Based on both analyses, where would this content likely rank?
   - topCompetitors: What type of content would outrank this?
   - quickWins: 3 fastest changes to improve ranking
   - longTermStrategy: Major content additions needed for top 3 ranking
   - contentGaps: What's missing compared to top-ranking content?

3. prioritizedImprovementPlan:
   - immediateActions: (High impact, both models agree)
     * List specific changes with exact implementation steps
   - secondaryImprovements: (High value from either analysis)
     * Include specific examples and recommendations  
   - optionalEnhancements: (Lower priority but still valuable)

4. contentPositioning:
   - bestAspectsToPreserve: What should definitely be kept?
   - criticalAreasToRevise: What must be changed for better ranking?
   - uniqueAngle: How to differentiate from competitors?
   - targetAudience: Who should this content serve?

5. finalAssessment:
   - combinedQualityScore: (Weighted average with explanation)
   - combinedRankingPrediction: Realistic ranking expectation after improvements
   - confidenceLevel: How confident are you in these recommendations?
   - expectedTimeToRank: How long might improvements take to show results?

Format your response as a JSON object. Do not wrap the JSON in code blocks. Focus on specific, actionable improvements that will help with both content quality and search ranking.".

(** [state[k] = v]. *)
Definition set_field (k : key) (v : json) (state : AgentState) : AgentState :=
  match k with
  | OpenaiAnalysis =>
      {| messages := messages state; article := article state;
         topic := topic state; openai_analysis := v;
         anthropic_analysis := anthropic_analysis state;
         final_comparison := final_comparison state |}
  | AnthropicAnalysis =>
      {| messages := messages state; article := article state;
         topic := topic state; openai_analysis := openai_analysis state;
         anthropic_analysis := v;
         final_comparison := final_comparison state |}
  | FinalComparison =>
      {| messages := messages state; article := article state;
         topic := topic state; openai_analysis := openai_analysis state;
         anthropic_analysis := anthropic_analysis state;
         final_comparison := v |}
  end.

Definition get_field (k : key) (state : AgentState) : json :=
  match k with
  | OpenaiAnalysis => openai_analysis state
  | AnthropicAnalysis => anthropic_analysis state
  | FinalComparison => final_comparison state
  end.

Definition setitem (k : key) (v : json) (state : AgentState) : M AgentState :=
  emit (SetItem k v) ;;; ret (set_field k v state).

(** [state.get("topic", default)]: the key is present, so its value is
    returned, [None] included. *)
Definition get_topic (state : AgentState) : pyval :=
  match topic state with
  | Some t => VStr t
  | None => VNone
  end.

Section Steps.
Variable env : Env.

Definition render (template : pystr) (kw : list (pystr * pyval)) : M pystr :=
  lift (format_messages env template kw).

(** [llm.invoke(messages).content]. *)
Definition invoke (llm : ChatModel) (prompt : pystr) : M pystr :=
  fun w =>
    (llm_invoke env (calls w) llm prompt,
     {| calls := S (calls w); trace := trace w ++ [Invoke llm prompt] |}).

Definition analyze_with_openai (state : AgentState) : M AgentState :=
  let llm := ChatOpenAI (py "gpt-4o-mini") 0 in
  prompt <- render (create_analysis_prompt (article state) (topic state)) [] ;;
  response <- invoke llm prompt ;;
  setitem OpenaiAnalysis (extract_json_from_response response) state.

Definition analyze_with_anthropic (state : AgentState) : M AgentState :=
  let llm := ChatAnthropic (py "claude-3-5-sonnet-latest") 0 in
  prompt <- render (create_analysis_prompt (article state) (topic state)) [] ;;
  response <- invoke llm prompt ;;
  setitem AnthropicAnalysis (extract_json_from_response response) state.

Definition compare_and_summarize (state : AgentState) : M AgentState :=
  let llm := ChatOpenAI (py "gpt-4o-mini") 0 in
  prompt <- render comparison_template
              [ (py "openai_analysis",
                  VStr (json_dumps env (openai_analysis state)));
                (py "anthropic_analysis",
                  VStr (json_dumps env (anthropic_analysis state)));
                (py "topic", get_topic state) ] ;;
  response <- invoke llm prompt ;;
  setitem FinalComparison (extract_json_from_response response) state.

(** *** The task graph

    A [Graph] of langgraph: named nodes, one edge out of each node, the entry
    and finish points as edges from [START] and to [END].  The compiled graph
    starts at the target of [START], gives each node the value its
    predecessor returned and stops at [END]; an exception raised by a node
    ends the run. *)
Record Graph := {
  nodes : list (pystr * (AgentState -> M AgentState));
  edges : list (pystr * pystr)
}.

Definition START : pystr := py "__start__".
Definition END : pystr := py "__end__".

Definition empty_graph : Graph := {| nodes := []; edges := [] |}.

Definition add_node (name : pystr) (fn : AgentState -> M AgentState)
  (g : Graph) : Graph :=
  {| nodes := nodes g ++ [(name, fn)]; edges := edges g |}.

Definition add_edge (a b : pystr) (g : Graph) : Graph :=
  {| nodes := nodes g; edges := edges g ++ [(a, b)] |}.

Definition set_entry_point (name : pystr) (g : Graph) : Graph :=
  add_edge START name g.

Definition set_finish_point (name : pystr) (g : Graph) : Graph :=
  add_edge name END g.

Fixpoint lookup {A} (name : pystr) (l : list (pystr * A)) : option A :=
  match l with
  | [] => None
  | (n, a) :: l' => if str_eqb n name then Some a else lookup name l'
  end.

(** The default bound of langgraph on the steps of one run. *)
Definition recursion_limit : nat := 25.

(** The run of a compiled graph from the node [at_], which has just
    returned [x]. *)
Fixpoint run_from (fuel : nat) (g : Graph) (at_ : pystr) (x : AgentState)
  : M AgentState :=
  match lookup at_ (edges g) with
  | None => raise (OtherException (py "dead end"))
  | Some next =>
      if str_eqb next END then ret x
      else
        match fuel with
        | O => raise (OtherException (py "recursion limit reached"))
        | S fuel' =>
            match lookup next (nodes g) with
            | None => raise (OtherException (py "unknown node"))
            | Some fn => x' <- fn x ;; run_from fuel' g next x'
            end
        end
  end.

(** [chain.invoke(input)]. *)
Definition graph_invoke (g : Graph) (input : AgentState) : M AgentState :=
  run_from recursion_limit g START input.

Definition create_analysis_graph : Graph :=
  let workflow := empty_graph in
  let workflow := add_node (py "openai_analysis") analyze_with_openai workflow in
  let workflow := add_node (py "anthropic_analysis") analyze_with_anthropic workflow in
  let workflow := add_node (py "compare") compare_and_summarize workflow in
  let workflow := add_edge (py "openai_analysis") (py "anthropic_analysis") workflow in
  let workflow := add_edge (py "anthropic_analysis") (py "compare") workflow in
  let workflow := set_entry_point (py "openai_analysis") workflow in
  let workflow := set_finish_point (py "compare") workflow in
  workflow.

End Steps.

End Agents.

(* ================================================================= *)
(** ** [main.py] *)

Module Main.
Import Py Json Eff Agents.
#[local] Open Scope run_scope.

(** [ArticleRequest]. *)
Record ArticleRequest := {
  text : pystr;
  req_topic : option pystr
}.

Definition too_short : pystr :=
  py "Article text is too short. Please provide at least 50 characters.".

Definition initial_state (text : pystr) (topic : option pystr) : AgentState :=
  {| messages := [];
     article := text;
     topic := topic;
     openai_analysis := JObj [];
     anthropic_analysis := JObj [];
     final_comparison := JObj [] |}.

(** The [dict] that [analyze_text] returns. *)
Definition analysis_dict (final_state : AgentState) : json :=
  JObj [ (py "openai_analysis", openai_analysis final_state);
         (py "anthropic_analysis", anthropic_analysis final_state);
         (py "final_comparison", final_comparison final_state) ].

(** What a request to [/analyze] ends in: the value the handler returns, the
    [HTTPException] it raises, or an exception that neither handler
    catches. *)
Inductive outcome : Type :=
| Returned (body : json)
| HTTPException (status_code : Z) (detail : pystr)
| Uncaught (e : exn).

Section Service.
Variable env : Env.

Definition analyze_text (text : pystr) (topic : option pystr) : M json :=
  if (len (strip text) <? 50)%Z then raise (ValueError too_short)
  else
    let chain := create_analysis_graph env in
    final_state <- graph_invoke chain (initial_state text topic) ;;
    ret (analysis_dict final_state).

(** [analyze_article]: [except ValueError] comes first, then
    [except Exception]. *)
Definition analyze_article (request : ArticleRequest) (w : World)
  : outcome * World :=
  match analyze_text (text request) (req_topic request) w with
  | (Ok body, w') => (Returned body, w')
  | (Raise (ValueError msg), w') => (HTTPException 400 msg, w')
  | (Raise (BaseExceptionOnly msg), w') => (Uncaught (BaseExceptionOnly msg), w')
  | (Raise e, w') =>
      (HTTPException 500 (py "Analysis failed: " ++ exn_str e), w')
  end.

End Service.

End Main.

(* ================================================================= *)
(** ** The check at load time *)

Module Startup.
Import Py Json Eff.

(** Truth value of what [os.getenv] returns: [None] and the empty text are
    false. *)
Definition truthy (v : option pystr) : bool :=
  match v with
  | Some (_ :: _) => true
  | Some [] | None => false
  end.

Definition missing_keys : pystr :=
  py "Missing required API keys. Please set OPENAI_API_KEY and ANTHROPIC_API_KEY in .env file".

(** The check that [main.py] runs when it is loaded, on the environment as
    [load_dotenv] leaves it.  [EnvironmentError] is [OSError]. *)
Definition check_api_keys (getenv : pystr -> option pystr) : Result unit :=
  if negb (truthy (getenv (py "OPENAI_API_KEY")))
     || negb (truthy (getenv (py "ANTHROPIC_API_KEY")))
  then Raise (OtherException missing_keys)
  else Ok tt.

End Startup.

(* ================================================================= *)
(** ** Observations on a run *)

Module Obs.
Import Py Json Eff Agents Main.

(** [pat in s]. *)
Definition contains (pat s : pystr) : bool :=
  match Re.split_first pat s with
  | Some _ => true
  | None => false
  end.

(** The fuel a successful scan needs is bounded by what it reads. *)
Definition adequate (n : nat) : Prop :=
  (forall s v r, scan_once n s = Some (v, r) ->
     (List.length r < List.length s)%nat
     /\ forall k, (2 * (List.length s - List.length r) <= k)%nat ->
                  scan_once k s = Some (v, r))
  /\ (forall s acc v r, array_items n s acc = Some (v, r) ->
     (List.length r < List.length s)%nat
     /\ forall k, (2 * (List.length s - List.length r) + 1 <= k)%nat ->
                  array_items k s acc = Some (v, r))
  /\ (forall s acc v r, object_members n s acc = Some (v, r) ->
     (List.length r < List.length s)%nat
     /\ forall k, (2 * (List.length s - List.length r) + 1 <= k)%nat ->
                  object_members k s acc = Some (v, r)).

(** The two models the steps construct. *)
Definition gpt : ChatModel := ChatOpenAI (py "gpt-4o-mini") 0.
Definition claude : ChatModel := ChatAnthropic (py "claude-3-5-sonnet-latest") 0.

(** The step that owns each analysis key, with the model it calls, the
    template it renders and the keyword arguments it renders it with. *)
Definition step_of (env : Env) (k : key) : AgentState -> M AgentState :=
  match k with
  | OpenaiAnalysis => analyze_with_openai env
  | AnthropicAnalysis => analyze_with_anthropic env
  | FinalComparison => compare_and_summarize env
  end.

Definition llm_of (k : key) : ChatModel :=
  match k with
  | OpenaiAnalysis | FinalComparison => gpt
  | AnthropicAnalysis => claude
  end.

Definition template_of (k : key) (state : AgentState) : pystr :=
  match k with
  | OpenaiAnalysis | AnthropicAnalysis =>
      create_analysis_prompt (article state) (topic state)
  | FinalComparison => comparison_template
  end.

Definition kwargs_of (env : Env) (k : key) (state : AgentState)
  : list (pystr * pyval) :=
  match k with
  | OpenaiAnalysis | AnthropicAnalysis => []
  | FinalComparison =>
      [ (py "openai_analysis", VStr (json_dumps env (openai_analysis state)));
        (py "anthropic_analysis", VStr (json_dumps env (anthropic_analysis state)));
        (py "topic", get_topic state) ]
  end.

(** The length check of [analyze_text] lets the text through. *)
Definition accepted (text : pystr) : bool := negb (len (strip text) <? 50)%Z.

(** The world after [n] more provider calls and the events [evs]. *)
Definition after (w : World) (n : nat) (evs : list event) : World :=
  {| calls := n + calls w; trace := trace w ++ evs |}.

Definition is_write (k : key) (e : event) : bool :=
  match e with
  | SetItem k' _ => key_eqb k k'
  | Invoke _ _ => false
  end.

Definition is_invoke (e : event) : bool :=
  match e with
  | Invoke _ _ => true
  | SetItem _ _ => false
  end.

(** [state[k]] has been assigned somewhere in [tr]. *)
Definition written (k : key) (tr : list event) : bool := existsb (is_write k) tr.

(** How many times [state[k]] is assigned in [tr], and how many provider
    calls [tr] holds. *)
Definition writes (k : key) (tr : list event) : nat :=
  List.length (filter (is_write k) tr).
Definition invokes (tr : list event) : nat :=
  List.length (filter is_invoke tr).

(** The events of a complete run. *)
Definition complete_trace (p1 : pystr) (v1 : json) (p2 : pystr) (v2 : json)
  (p3 : pystr) (v3 : json) : list event :=
  [ Invoke gpt p1; SetItem OpenaiAnalysis v1;
    Invoke claude p2; SetItem AnthropicAnalysis v2;
    Invoke gpt p3; SetItem FinalComparison v3 ].

(** The run as the specification describes it (4.5): a straight line
    [Created -> AAnalyzed -> BAnalyzed -> Synthesized], each transition one
    rendering and one provider call, a failure of either ending the run.
    This definition follows the specification; [PipelineSpec.run_refines]
    compares it with [analyze_text]. *)
Definition pipeline_reference (env : Env) (text : pystr) (topic : option pystr)
  (w : World) : Result json * World :=
  let s0 := initial_state text topic in
  match format_messages env (create_analysis_prompt text topic) [] with
  | Raise e => (Raise e, w)
  | Ok p1 =>
  match llm_invoke env (calls w) gpt p1 with
  | Raise e => (Raise e, after w 1 [Invoke gpt p1])
  | Ok r1 =>
  let v1 := extract_json_from_response r1 in
  let s1 := set_field OpenaiAnalysis v1 s0 in
  match llm_invoke env (S (calls w)) claude p1 with
  | Raise e =>
      (Raise e, after w 2 [Invoke gpt p1; SetItem OpenaiAnalysis v1;
                           Invoke claude p1])
  | Ok r2 =>
  let v2 := extract_json_from_response r2 in
  let s2 := set_field AnthropicAnalysis v2 s1 in
  match format_messages env comparison_template
          (kwargs_of env FinalComparison s2) with
  | Raise e =>
      (Raise e, after w 2 [Invoke gpt p1; SetItem OpenaiAnalysis v1;
                           Invoke claude p1; SetItem AnthropicAnalysis v2])
  | Ok p3 =>
  match llm_invoke env (S (S (calls w))) gpt p3 with
  | Raise e =>
      (Raise e, after w 3 [Invoke gpt p1; SetItem OpenaiAnalysis v1;
                           Invoke claude p1; SetItem AnthropicAnalysis v2;
                           Invoke gpt p3])
  | Ok r3 =>
  let v3 := extract_json_from_response r3 in
  (Ok (JObj [ (py "openai_analysis", v1);
              (py "anthropic_analysis", v2);
              (py "final_comparison", v3) ]),
   after w 3 (complete_trace p1 v1 p1 v2 p3 v3))
  end end end end end.

End Obs.

(* ================================================================= *)
(** ** Concrete environments and inputs, used to run the model *)

Module Fixture.
Import Py Json Eff Agents Main.

(** An environment that renders a template as it stands and answers the
    [n]-th provider call with [replies n]. *)
Definition scripted (replies : nat -> Result pystr) : Env :=
  {| format_messages := fun t _ => Ok t;
     llm_invoke := fun n _ _ => replies n;
     json_dumps := fun _ => py "{}" |}.

Definition refusal : pystr := py "I cannot help with that.".

(** Every provider answers with the refusal. *)
Definition all_refuse : Env := scripted (fun _ => Ok refusal).

(** The [n]-th provider call fails with a timeout, the others return an empty
    object. *)
Definition timeout_at (n : nat) : Env :=
  scripted (fun i => if Nat.eqb i n
                     then Raise (TransportError TimedOut (py "Request timed out."))
                     else Ok (py "{}")).

Definition text49 : pystr := repeat 97 49.
Definition text50 : pystr := repeat 97 50.

(** Fifty letters between two spaces and a line feed. *)
Definition padded : pystr := [32; 32] ++ text50 ++ [10].

(** A reply that fences an empty object under the tag [json], with prose on
    both sides, and one that uses the tag [python]. *)
Definition fenced_json : pystr :=
  py "Here you go: " ++ Re.ticks ++ py "json" ++ [10] ++ py "{}"
  ++ Re.closing ++ py " Hope this helps.".

Definition fenced_python : pystr :=
  Re.ticks ++ py "python" ++ [10] ++ py "{}" ++ Re.closing.

End Fixture.

(* ================================================================= *)
(** ** Shapes of texts and of failures *)

Module Shape.
Import Py Json Eff Agents Main Obs.

Definition no_tick (l : pystr) : bool := forallb (fun c => negb (c =? 96)) l.
Definition no_newline (l : pystr) : bool := forallb (fun c => negb (c =? 10)) l.

(** Every backtick of [l] is followed, in [l], by a double quote with no
    line feed before it. *)
Definition ticks_quoted (l : pystr) : Prop :=
  forall a b, l = a ++ 96 :: b ->
    exists b1 b2, b = b1 ++ 34 :: b2 /\ no_newline b1 = true.

(** What a successful scan has read is a prefix of its input in which every
    backtick is quoted. *)
Definition reads_quoted (n : nat) : Prop :=
  (forall s v r, scan_once n s = Some (v, r) ->
     exists c, s = c ++ r /\ ticks_quoted c)
  /\ (forall s acc v r, array_items n s acc = Some (v, r) ->
     exists c, s = c ++ r /\ ticks_quoted c)
  /\ (forall s acc v r, object_members n s acc = Some (v, r) ->
     exists c, s = c ++ r /\ ticks_quoted c).

(** A character with which a JSON value can begin. *)
Definition json_start (c : N) : bool :=
  (c =? 34) || (c =? 123) || (c =? 91) || (c =? 45) || is_digit c
  || (c =? 110) || (c =? 116) || (c =? 102) || (c =? 78) || (c =? 73).

(** The text begins with a whole fence: three backticks, no tag or the tag
    [json], a line feed, an interior, a line feed and three backticks. *)
Definition fence_at_head (s : pystr) : Prop :=
  exists tag g post,
    (tag = [] \/ tag = py "json")
    /\ s = Re.ticks ++ tag ++ [10] ++ g ++ Re.closing ++ post.


(** Two steps end alike: the same exception, or states that agree on the
    field of [k]. *)
Definition same_result (k : key) (r r' : Result AgentState) : Prop :=
  match r, r' with
  | Ok a, Ok b => get_field k a = get_field k b
  | Raise e, Raise e' => e = e'
  | _, _ => False
  end.



(** A rendering that refuses every template. *)
Definition refusing_renderer : Env :=
  {| format_messages := fun _ _ => Raise (OtherException (py "'x'"));
     llm_invoke := fun _ _ _ => Ok (py "{}");
     json_dumps := fun _ => py "{}" |}.

End Shape.

(* ================================================================= *)
(** ** The decoder *)

Module JsonSpec.
Import Py Json Obs.

#[local] Arguments N.eqb : simpl nomatch.
#[local] Arguments N.leb : simpl nomatch.
#[local] Arguments N.ltb : simpl nomatch.

Lemma skip_ws_length (s : pystr) : (List.length (skip_ws s) <= List.length s)%nat.
Proof.
  induction s as [|c t IH]; simpl; [lia|].
  destruct (is_ws c); simpl; lia.
Qed.

Lemma strip_prefix_length (p s r : pystr) :
  strip_prefix p s = Some r ->
  List.length s = (List.length p + List.length r)%nat.
Proof.
  revert s. induction p as [|x p IH]; intros s H; simpl in *.
  - now injection H as ->.
  - destruct s as [|y s]; [discriminate|].
    destruct (x =? y); [|discriminate].
    simpl. now rewrite (IH _ H).
Qed.

Lemma cons_fst_some {A B} (a : A) (o : option (list A * B)) l b :
  cons_fst a o = Some (l, b) -> exists l', o = Some (l', b) /\ l = a :: l'.
Proof.
  destruct o as [[l' b']|]; simpl; [|discriminate].
  intros H. injection H as <- <-. now exists l'.
Qed.

Lemma scanstring_shorter (s x r : pystr) :
  scanstring s = Some (x, r) -> (List.length r < List.length s)%nat.
Proof.
  remember (List.length s) as n eqn:Hn.
  revert s x r Hn. induction n as [n IH] using lt_wf_ind.
  intros s x r Hn H.
  destruct s as [|c t]; [discriminate|].
  cbn [List.length] in Hn. cbn [scanstring] in H.
  destruct (c =? 34).
  { injection H as <- <-. lia. }
  destruct (c =? 92).
  2:{ destruct (c <? 32); [discriminate|].
      apply cons_fst_some in H as (l' & H & _).
      specialize (IH (List.length t) ltac:(lia) t l' r eq_refl H). lia. }
  destruct t as [|e t1]; [discriminate|].
  destruct (e =? 117).
  2:{ destruct (unescape e); [|discriminate].
      apply cons_fst_some in H as (l' & H & _).
      specialize (IH (List.length t1) ltac:(cbn [List.length] in *; lia) t1 l' r eq_refl H).
      cbn [List.length] in *. lia. }
  destruct t1 as [|h1 [|h2 [|h3 [|h4 t2]]]]; try discriminate.
  destruct (hex4 h1 h2 h3 h4) as [uni|]; [|discriminate].
  assert (Ht2 : forall l', scanstring t2 = Some (l', r) ->
                      (List.length r < n)%nat).
  { intros l' H'.
    specialize (IH (List.length t2) ltac:(cbn [List.length] in *; lia) t2 l' r eq_refl H').
    cbn [List.length] in *. lia. }
  destruct (is_high_surrogate uni).
  2:{ apply cons_fst_some in H as (l' & H & _). eauto. }
  destruct t2 as [|b [|u [|g1 [|g2 [|g3 [|g4 t3]]]]]];
    try (apply cons_fst_some in H as (l' & H & _); eauto; fail).
  destruct ((b =? 92) && (u =? 117)).
  2:{ apply cons_fst_some in H as (l' & H & _). eauto. }
  destruct (hex4 g1 g2 g3 g4) as [uni2|]; [|discriminate].
  destruct (is_low_surrogate uni2).
  2:{ apply cons_fst_some in H as (l' & H & _). eauto. }
  apply cons_fst_some in H as (l' & H & _).
  specialize (IH (List.length t3) ltac:(cbn [List.length] in *; lia) t3 l' r eq_refl H).
  cbn [List.length] in *. lia.
Qed.

Lemma span_digits_length (s ds r : pystr) :
  span_digits s = (ds, r) -> (List.length r <= List.length s)%nat.
Proof.
  revert ds r. induction s as [|c t IH]; intros ds r H; simpl in H.
  - injection H as <- <-. simpl; lia.
  - destruct (is_digit c).
    + destruct (span_digits t) as [ds' r'] eqn:E.
      injection H as <- <-. specialize (IH _ _ eq_refl). simpl; lia.
    + injection H as <- <-. simpl; lia.
Qed.

Lemma match_integer_shorter (s l r : pystr) :
  match_integer s = Some (l, r) -> (List.length r < List.length s)%nat.
Proof.
  unfold match_integer. intros H.
  assert (B : forall sign u, 
     match u with
     | c :: t => if c =? 48 then Some (sign ++ [c], t)
                 else if is_digit c then let (ds, r') := span_digits t in Some (sign ++ c :: ds, r')
                 else None
     | [] => None
     end = Some (l, r) -> (List.length r < List.length u)%nat).
  { intros sign [|c t] Hb; [discriminate|].
    destruct (c =? 48); [injection Hb as <- <-; simpl; lia|].
    destruct (is_digit c); [|discriminate].
    destruct (span_digits t) as [ds r'] eqn:E.
    injection Hb as <- <-. apply span_digits_length in E. simpl; lia. }
  destruct s as [|c t]; [discriminate|].
  destruct (c =? 45).
  - apply (B [c] t) in H. simpl; lia.
  - exact (B [] (c :: t) H).
Qed.

Lemma match_frac_length (s f r : pystr) :
  match_frac s = (f, r) -> (List.length r <= List.length s)%nat.
Proof.
  unfold match_frac. intros H.
  destruct s as [|c t]; [injection H as <- <-; lia|].
  destruct (c =? 46); [|injection H as <- <-; lia].
  destruct (span_digits t) as [[|d ds] r'] eqn:E.
  - injection H as <- <-. lia.
  - injection H as <- <-. apply span_digits_length in E. simpl; lia.
Qed.

Lemma match_exp_length (s f r : pystr) :
  match_exp s = (f, r) -> (List.length r <= List.length s)%nat.
Proof.
  unfold match_exp. intros H.
  destruct s as [|c t]; [injection H as <- <-; lia|].
  destruct ((c =? 101) || (c =? 69)); [|injection H as <- <-; lia].
  destruct t as [|d t''].
  - cbn in H. injection H as <- <-. lia.
  - destruct ((d =? 43) || (d =? 45)).
    + destruct (span_digits t'') as [[|x ds] r'] eqn:E;
        injection H as <- <-; [lia|].
      apply span_digits_length in E. simpl; lia.
    + destruct (span_digits (d :: t'')) as [[|x ds] r'] eqn:E;
        injection H as <- <-; [lia|].
      apply span_digits_length in E. simpl in *; lia.
Qed.

Lemma match_number_shorter (s : pystr) (v : json) (r : pystr) :
  match_number s = Some (v, r) -> (List.length r < List.length s)%nat.
Proof.
  unfold match_number. intros H.
  destruct (match_integer s) as [[i r1]|] eqn:Ei; [|discriminate].
  destruct (match_frac r1) as [f r2] eqn:Ef.
  destruct (match_exp r2) as [e r3] eqn:Ee.
  apply match_integer_shorter in Ei. apply match_frac_length in Ef.
  apply match_exp_length in Ee.
  destruct f, e; injection H as <- <-; lia.
Qed.

Lemma literal_shorter (lit : string) (v v' : json) (s r : pystr) :
  lit <> EmptyString ->
  literal lit v s = Some (v', r) -> (List.length r < List.length s)%nat.
Proof.
  intros Hne. unfold literal.
  destruct (strip_prefix (py lit) s) as [r'|] eqn:E; [|discriminate].
  intros H. injection H as <- <-.
  apply strip_prefix_length in E.
  destruct lit; [congruence|]. unfold py in E. simpl in E. lia.
Qed.

Lemma scan_scalar_shorter (s : pystr) (v : json) (r : pystr) :
  scan_scalar s = Some (v, r) -> (List.length r < List.length s)%nat.
Proof.
  unfold scan_scalar, or_else. intros H.
  repeat match type of H with
         | match ?x with _ => _ end = _ =>
             let E := fresh "E" in
             destruct x as [[? ?]|] eqn:E;
             [ injection H as <- <-;
               first [ apply literal_shorter in E; [exact E | discriminate]
                     | now apply match_number_shorter in E ]
             | ]
         end.
  apply literal_shorter in H; [exact H | discriminate].
Qed.

Lemma scan_adequate (n : nat) : adequate n.
Proof.
  induction n as [|n (IHs & IHa & IHo)]; [repeat split; discriminate|].
  split; [|split].
  - intros s v r H. cbn [scan_once] in H.
    destruct s as [|c t]; [discriminate|].
    destruct (c =? 34) eqn:E34.
    { destruct (scanstring t) as [[str r']|] eqn:Es; [|discriminate].
      injection H as <- <-. pose proof (scanstring_shorter _ _ _ Es) as Hl.
      split; [cbn [List.length] in *; lia|].
      intros [|k] Hk; [cbn [List.length] in *; lia|].
      cbn [scan_once]. now rewrite E34, Es. }
    destruct (c =? 123) eqn:E123.
    { pose proof (skip_ws_length t) as Hw.
      destruct (skip_ws t) as [|d r0] eqn:Ew; [discriminate|].
      destruct (d =? 125) eqn:E125.
      { injection H as <- <-. split; [cbn [List.length] in *; lia|].
        intros [|k] Hk; [cbn [List.length] in *; lia|].
        cbn [scan_once]. now rewrite E34, E123, Ew, E125. }
      destruct (d =? 34) eqn:Eq; [|discriminate].
      destruct (IHo _ _ _ _ H) as [Hl Hk'].
      split; [cbn [List.length] in *; lia|].
      intros [|k] Hk; [cbn [List.length] in *; lia|].
      cbn [scan_once]. rewrite E34, E123, Ew, E125, Eq.
      apply Hk'. cbn [List.length] in *; lia. }
    destruct (c =? 91) eqn:E91.
    { pose proof (skip_ws_length t) as Hw.
      destruct (skip_ws t) as [|d r0] eqn:Ew; [discriminate|].
      destruct (d =? 93) eqn:E93.
      { injection H as <- <-. split; [cbn [List.length] in *; lia|].
        intros [|k] Hk; [cbn [List.length] in *; lia|].
        cbn [scan_once]. now rewrite E34, E123, E91, Ew, E93. }
      destruct (IHa _ _ _ _ H) as [Hl Hk'].
      split; [cbn [List.length] in *; lia|].
      intros [|k] Hk; [cbn [List.length] in *; lia|].
      cbn [scan_once]. rewrite E34, E123, E91, Ew, E93.
      apply Hk'. cbn [List.length] in *; lia. }
    pose proof (scan_scalar_shorter _ _ _ H) as Hl.
    split; [exact Hl|].
    intros [|k] Hk; [lia|].
    cbn [scan_once]. now rewrite E34, E123, E91.
  - intros s acc v r H. cbn [array_items] in H.
    destruct (scan_once n s) as [[v1 r1]|] eqn:Es; [|discriminate].
    destruct (IHs _ _ _ Es) as [Hl1 Hk1].
    pose proof (skip_ws_length r1) as Hw.
    destruct (skip_ws r1) as [|d r'] eqn:Ew; [discriminate|].
    destruct (d =? 93) eqn:E93.
    { injection H as <- <-. split; [cbn [List.length] in *; lia|].
      intros [|k] Hk; [lia|].
      cbn [array_items]. rewrite (Hk1 k), Ew, E93; [reflexivity|].
      cbn [List.length] in *; lia. }
    destruct (d =? 44) eqn:E44; [|discriminate].
    pose proof (skip_ws_length r') as Hw'.
    destruct (IHa _ _ _ _ H) as [Hl2 Hk2].
    split; [cbn [List.length] in *; lia|].
    intros [|k] Hk; [lia|].
    cbn [array_items]. rewrite (Hk1 k), Ew, E93, E44;
      [apply Hk2|]; cbn [List.length] in *; lia.
  - intros s acc v r H. cbn [object_members] in H.
    destruct (scanstring s) as [[key r0]|] eqn:Ek; [|discriminate].
    pose proof (scanstring_shorter _ _ _ Ek) as Hlk.
    pose proof (skip_ws_length r0) as Hw0.
    destruct (skip_ws r0) as [|d r1] eqn:Ew0; [discriminate|].
    destruct (d =? 58) eqn:E58; [|discriminate].
    pose proof (skip_ws_length r1) as Hw1.
    destruct (scan_once n (skip_ws r1)) as [[v1 r2]|] eqn:Es; [|discriminate].
    destruct (IHs _ _ _ Es) as [Hl1 Hk1].
    pose proof (skip_ws_length r2) as Hw2.
    destruct (skip_ws r2) as [|e r3] eqn:Ew2; [discriminate|].
    destruct (e =? 125) eqn:E125.
    { injection H as <- <-. split; [cbn [List.length] in *; lia|].
      intros [|k] Hk; [lia|].
      cbn [object_members]. rewrite Ek, Ew0, E58, (Hk1 k), Ew2, E125;
        [reflexivity|]. cbn [List.length] in *; lia. }
    destruct (e =? 44) eqn:E44; [|discriminate].
    pose proof (skip_ws_length r3) as Hw3.
    destruct (skip_ws r3) as [|q r4] eqn:Ew3; [discriminate|].
    destruct (q =? 34) eqn:Eq; [|discriminate].
    destruct (IHo _ _ _ _ H) as [Hl2 Hk2].
    split; [cbn [List.length] in *; lia|].
    intros [|k] Hk; [lia|].
    cbn [object_members]. rewrite Ek, Ew0, E58, (Hk1 k), Ew2, E125, E44, Ew3, Eq;
      [apply Hk2|]; cbn [List.length] in *; lia.
Qed.

(** The fuel of [loads] is enough: more fuel does not change the result of
    the scan, so that [loads] fails only where the scanner itself does. *)
Theorem loads_fuel_enough (s : pystr) (k : nat) :
  (2 * List.length s + 2 <= k)%nat ->
  scan_once k (skip_ws s) = scan_once (2 * List.length s + 2) (skip_ws s).
Proof.
  intros Hk. pose proof (skip_ws_length s) as Hw.
  destruct (scan_once k (skip_ws s)) as [[v r]|] eqn:E.
  - destruct (proj1 (scan_adequate k) _ _ _ E) as [Hl Hall].
    symmetry. apply Hall. lia.
  - destruct (scan_once (2 * List.length s + 2) (skip_ws s)) as [[v r]|] eqn:E';
      [|reflexivity].
    destruct (proj1 (scan_adequate _) _ _ _ E') as [Hl Hall].
    rewrite (Hall k) in E; [discriminate | lia].
Qed.

End JsonSpec.

(* ================================================================= *)
(** ** The extractor *)

Module ExtractorSpec.
Import Py Json Eff Agents Obs.

#[local] Arguments N.eqb : simpl nomatch.

Lemma strip_prefix_app (p s : pystr) : strip_prefix p (p ++ s) = Some s.
Proof.
  induction p as [|x p IH]; simpl; [reflexivity|].
  now rewrite N.eqb_refl.
Qed.

(** A match of [closing] cannot begin in a text that holds none and end in
    the [closing] that follows it: past its first character the pattern is
    made of backticks, and the text that follows begins with a line feed. *)
Lemma closing_not_astride (b post : pystr) :
  b <> [] ->
  strip_prefix Re.closing b = None ->
  strip_prefix Re.closing (b ++ Re.closing ++ post) = None.
Proof.
  intros Hne H.
  destruct b as [|c0 [|c1 [|c2 [|c3 b']]]]; [congruence| | | |];
    unfold Re.closing, Re.ticks in *; simpl in *;
    repeat
      match goal with
      | |- context [N.eqb ?a ?b] =>
          destruct (N.eqb a b); simpl in *
      end; congruence.
Qed.

Lemma split_first_none_cons (pat : pystr) (c : N) (t : pystr) :
  Re.split_first pat (c :: t) = None ->
  strip_prefix pat (c :: t) = None /\ Re.split_first pat t = None.
Proof.
  simpl Re.split_first.
  destruct (strip_prefix pat (c :: t)); [discriminate|].
  destruct (Re.split_first pat t) as [[a b]|]; [discriminate|].
  now split.
Qed.

(** The lazy group stops at the first [closing]: a body that holds no
    [closing] is captured whole. *)
Lemma split_first_closing (body post : pystr) :
  Re.split_first Re.closing body = None ->
  Re.split_first Re.closing (body ++ Re.closing ++ post) = Some (body, post).
Proof.
  induction body as [|c t IH]; intros H.
  - change ([] ++ Re.closing ++ post) with (Re.closing ++ post).
    destruct post; reflexivity.
  - destruct (split_first_none_cons _ _ _ H) as [Hp Ht].
    assert (Hs : strip_prefix Re.closing ((c :: t) ++ Re.closing ++ post) = None)
      by (apply closing_not_astride; [discriminate | exact Hp]).
    change ((c :: t) ++ Re.closing ++ post)
      with (c :: (t ++ Re.closing ++ post)) in *.
    unfold Re.split_first; fold Re.split_first.
    rewrite Hs, (IH Ht). reflexivity.
Qed.

Lemma contains_false (pat s : pystr) :
  contains pat s = false -> Re.split_first pat s = None.
Proof. unfold contains. now destruct (Re.split_first pat s). Qed.

(** Text that holds no three backticks in a row is passed over by the
    search, up to the three backticks that follow it: where three backticks
    begin in that text and end in the fence, a backtick follows them, and the
    pattern asks for the word [json] or a line feed. *)
Lemma search_skips (pre rest : pystr) :
  contains Re.ticks pre = false ->
  Re.search (pre ++ Re.ticks ++ rest) = Re.search (Re.ticks ++ rest).
Proof.
  intros H. apply contains_false in H.
  induction pre as [|c pre IH]; [reflexivity|].
  destruct (split_first_none_cons _ _ _ H) as [Hp Ht].
  change ((c :: pre) ++ Re.ticks ++ rest) with (c :: (pre ++ Re.ticks ++ rest)).
  unfold Re.search; fold Re.search.
  assert (Hm : Re.match_here (c :: pre ++ Re.ticks ++ rest) = None).
  { unfold Re.match_here, Re.ticks in *.
    destruct pre as [|a [|b pre']]; simpl in *;
      repeat match goal with
             | |- context [N.eqb 96 ?x] => destruct (N.eqb 96 x); simpl in *
             end; congruence. }
  rewrite Hm. now apply IH.
Qed.

Lemma match_here_fence (tag body post : pystr) :
  tag = [] \/ tag = py "json" ->
  contains Re.closing body = false ->
  Re.match_here (Re.ticks ++ tag ++ [10] ++ body ++ Re.closing ++ post)
  = Some body.
Proof.
  intros Htag Hb. apply contains_false in Hb. unfold Re.match_here.
  rewrite strip_prefix_app.
  destruct Htag as [-> | ->].
  - change ([] ++ [10] ++ body ++ Re.closing ++ post)
      with (10 :: (body ++ Re.closing ++ post)).
    change (strip_prefix (py "json") (10 :: body ++ Re.closing ++ post))
      with (@None pystr).
    cbv beta iota. rewrite N.eqb_refl, (split_first_closing _ _ Hb). reflexivity.
  - rewrite strip_prefix_app.
    change ([10] ++ body ++ Re.closing ++ post)
      with (10 :: (body ++ Re.closing ++ post)).
    cbv beta iota. rewrite N.eqb_refl, (split_first_closing _ _ Hb). reflexivity.
Qed.

Lemma search_of_match (s g : pystr) :
  Re.match_here s = Some g -> Re.search s = Some g.
Proof.
  intros H. destruct s; unfold Re.search; fold Re.search; now rewrite H.
Qed.

(** The first fence that the pattern recognises, with its interior. *)
Lemma search_fence (pre tag body post : pystr) :
  contains Re.ticks pre = false ->
  tag = [] \/ tag = py "json" ->
  contains Re.closing body = false ->
  Re.search (pre ++ Re.ticks ++ tag ++ [10] ++ body ++ Re.closing ++ post)
  = Some body.
Proof.
  intros Hpre Htag Hb.
  rewrite (search_skips _ _ Hpre).
  apply search_of_match, match_here_fence; assumption.
Qed.

(** *** What a match is

    A match of the search is a fence in the text, and the leftmost one; a
    text that holds a fence of this form has a match. *)

Lemma strip_prefix_some (p s r : pystr) :
  strip_prefix p s = Some r -> s = p ++ r.
Proof.
  revert s. induction p as [|x p IH]; intros s H; simpl in *.
  - congruence.
  - destruct s as [|y s]; [discriminate|].
    destruct (x =? y) eqn:E; [|discriminate].
    apply N.eqb_eq in E. subst y. now rewrite (IH _ H).
Qed.

Lemma split_first_some (pat s a b : pystr) :
  Re.split_first pat s = Some (a, b) -> s = a ++ pat ++ b.
Proof.
  revert a. induction s as [|c t IH]; intros a H.
  - unfold Re.split_first in H.
    destruct (strip_prefix pat []) as [r|] eqn:E; [|discriminate].
    injection H as <- <-. exact (strip_prefix_some pat [] r E).
  - unfold Re.split_first in H; fold Re.split_first in H.
    destruct (strip_prefix pat (c :: t)) as [r|] eqn:E.
    + injection H as <- <-. exact (strip_prefix_some pat (c :: t) r E).
    + destruct (Re.split_first pat t) as [[a' b']|]; [|discriminate].
      injection H as <- <-. now rewrite (IH a' eq_refl).
Qed.

Lemma split_first_finds (pat a b : pystr) :
  Re.split_first pat (a ++ pat ++ b) <> None.
Proof.
  induction a as [|c a IH].
  - change ([] ++ pat ++ b) with (pat ++ b).
    destruct (pat ++ b) eqn:E; unfold Re.split_first; fold Re.split_first;
      rewrite <- E, strip_prefix_app; discriminate.
  - change ((c :: a) ++ pat ++ b) with (c :: (a ++ pat ++ b)).
    unfold Re.split_first; fold Re.split_first.
    destruct (strip_prefix pat (c :: a ++ pat ++ b)); [discriminate|].
    destruct (Re.split_first pat (a ++ pat ++ b)) as [[x y]|];
      [discriminate | contradiction].
Qed.

Lemma match_here_sound (s g : pystr) :
  Re.match_here s = Some g ->
  exists tag post,
    (tag = [] \/ tag = py "json")
    /\ s = Re.ticks ++ tag ++ [10] ++ g ++ Re.closing ++ post.
Proof.
  unfold Re.match_here. intros H.
  destruct (strip_prefix Re.ticks s) as [r|] eqn:Et; [|discriminate].
  apply strip_prefix_some in Et. subst s.
  destruct (strip_prefix (py "json") r) as [r2|] eqn:Ej.
  - apply strip_prefix_some in Ej. subst r.
    destruct r2 as [|c body]; [discriminate|].
    destruct (c =? 10) eqn:Ec; [|discriminate]. apply N.eqb_eq in Ec. subst c.
    destruct (Re.split_first Re.closing body) as [[a b]|] eqn:Es; [|discriminate].
    injection H as <-. apply split_first_some in Es. subst body.
    exists (py "json"), b. split; [now right | reflexivity].
  - destruct r as [|c body]; [discriminate|].
    destruct (c =? 10) eqn:Ec; [|discriminate]. apply N.eqb_eq in Ec. subst c.
    destruct (Re.split_first Re.closing body) as [[a b]|] eqn:Es; [|discriminate].
    injection H as <-. apply split_first_some in Es. subst body.
    exists [], b. split; [now left | reflexivity].
Qed.

Lemma match_here_complete (tag body post : pystr) :
  tag = [] \/ tag = py "json" ->
  Re.match_here (Re.ticks ++ tag ++ [10] ++ body ++ Re.closing ++ post) <> None.
Proof.
  intros Htag. unfold Re.match_here. rewrite strip_prefix_app.
  pose proof (split_first_finds Re.closing body post) as Hf.
  destruct Htag as [-> | ->].
  - change ([] ++ [10] ++ body ++ Re.closing ++ post)
      with (10 :: (body ++ Re.closing ++ post)).
    change (strip_prefix (py "json") (10 :: body ++ Re.closing ++ post))
      with (@None pystr).
    cbv beta iota. rewrite N.eqb_refl.
    destruct (Re.split_first Re.closing (body ++ Re.closing ++ post));
      [discriminate | contradiction].
  - rewrite strip_prefix_app.
    change ([10] ++ body ++ Re.closing ++ post)
      with (10 :: (body ++ Re.closing ++ post)).
    cbv beta iota. rewrite N.eqb_refl.
    destruct (Re.split_first Re.closing (body ++ Re.closing ++ post));
      [discriminate | contradiction].
Qed.

(** The group of the search is the interior of a fence of the text, and the
    pattern matches at no earlier position. *)
Lemma search_sound (s g : pystr) :
  Re.search s = Some g ->
  exists pre tag post,
    (tag = [] \/ tag = py "json")
    /\ s = pre ++ Re.ticks ++ tag ++ [10] ++ g ++ Re.closing ++ post
    /\ forall i, (i < List.length pre)%nat -> Re.match_here (skipn i s) = None.
Proof.
  induction s as [|c t IH]; intros H.
  - unfold Re.search in H. discriminate.
  - unfold Re.search in H; fold Re.search in H.
    destruct (Re.match_here (c :: t)) as [g'|] eqn:Em.
    + injection H as ->.
      destruct (match_here_sound _ _ Em) as (tag & post & Htag & Hs).
      exists [], tag, post. split; [exact Htag|]. split; [exact Hs|].
      intros i Hi. inversion Hi.
    + destruct (IH H) as (pre & tag & post & Htag & Hs & Hmin).
      exists (c :: pre), tag, post. split; [exact Htag|].
      split; [now rewrite Hs at 1|].
      intros [|i] Hi; [exact Em|]. simpl in Hi. apply Hmin. lia.
Qed.

(** A text that holds a fence of the form the pattern describes has a
    match. *)
Lemma search_complete (pre tag body post : pystr) :
  tag = [] \/ tag = py "json" ->
  Re.search (pre ++ Re.ticks ++ tag ++ [10] ++ body ++ Re.closing ++ post)
  <> None.
Proof.
  intros Htag. induction pre as [|c pre IH].
  - change ([] ++ Re.ticks ++ tag ++ [10] ++ body ++ Re.closing ++ post)
      with (Re.ticks ++ tag ++ [10] ++ body ++ Re.closing ++ post).
    pose proof (match_here_complete tag body post Htag) as Hm.
    destruct (Re.match_here _) as [g|] eqn:Em; [|contradiction].
    now rewrite (search_of_match _ _ Em).
  - change ((c :: pre) ++ Re.ticks ++ tag ++ [10] ++ body ++ Re.closing ++ post)
      with (c :: (pre ++ Re.ticks ++ tag ++ [10] ++ body ++ Re.closing ++ post)).
    unfold Re.search; fold Re.search.
    destruct (Re.match_here (c :: _)); [discriminate | exact IH].
Qed.

(** The extractor returns, for every text, one of three values: what the
    interior of the first recognised fence parses to, what the whole text
    parses to, or the fallback record.  Being a function of the model, it
    returns for every text. *)
Lemma extract_cases (text : pystr) :
  (exists g, Re.search text = Some g
             /\ loads g = Some (extract_json_from_response text))
  \/ loads text = Some (extract_json_from_response text)
  \/ extract_json_from_response text = fallback text.
Proof.
  unfold extract_json_from_response.
  destruct (Re.search text) as [g|] eqn:Es.
  - destruct (loads g) as [v|] eqn:Eg.
    + left. now exists g.
    + right. destruct (loads text); [left | right]; reflexivity.
  - right. destruct (loads text); [left | right]; reflexivity.
Qed.

Lemma fallback_is_mapping (text : pystr) : is_mapping (fallback text) = true.
Proof. reflexivity. Qed.

(** C1: the extractor is meant to return a mapping for every text.  On the
    reply [42] both the model of [json.loads] and the extractor return the
    integer 42, which is not a mapping and is not the fallback record. *)
Theorem extract_scalar_reply_not_mapping :
  loads (py "42") = Some (JInt 42)
  /\ extract_json_from_response (py "42") = JInt 42
  /\ is_mapping (extract_json_from_response (py "42")) = false
  /\ extract_json_from_response (py "42") <> fallback (py "42").
Proof.
  repeat split; try (vm_compute; reflexivity).
  vm_compute. discriminate.
Qed.

(** C2, as the claim states it: a fence tagged [python] whose interior is the
    empty object is not extracted; the result is the fallback record. *)
Lemma fenced_other_tag_falls_back :
  Fixture.fenced_python
  = Re.ticks ++ py "python" ++ [10] ++ py "{}" ++ [10] ++ Re.ticks
  /\ loads (py "{}") = Some (JObj [])
  /\ extract_json_from_response Fixture.fenced_python
     = fallback Fixture.fenced_python
  /\ extract_json_from_response Fixture.fenced_python <> JObj [].
Proof.
  repeat split; try (vm_compute; reflexivity).
  vm_compute. discriminate.
Qed.

(** C2, amended: when the text holds, after a stretch without three
    backticks in a row, a fence whose opening is three backticks, no tag or
    the tag [json], and a line feed, and whose closing is the first line
    feed followed by three backticks, then an interior that parses is what
    the extractor returns, whatever surrounds the fence; and when that
    interior does not parse, the extractor goes on to the whole text and to
    the fallback, so that no later fence is tried. *)
Theorem extract_first_fence (pre tag body post : pystr) :
  contains Re.ticks pre = false ->
  tag = [] \/ tag = py "json" ->
  contains Re.closing body = false ->
  let text := pre ++ Re.ticks ++ tag ++ [10] ++ body ++ Re.closing ++ post in
  (forall v, loads body = Some v -> extract_json_from_response text = v)
  /\ (loads body = None ->
      extract_json_from_response text
      = match loads text with Some w => w | None => fallback text end).
Proof.
  intros Hpre Htag Hb text.
  pose proof (search_fence pre tag body post Hpre Htag Hb) as Hs.
  fold text in Hs. unfold extract_json_from_response. rewrite Hs.
  split.
  - intros v Hv. now rewrite Hv.
  - intros Hn. now rewrite Hn.
Qed.

Lemma extract_first_fence_witness :
  extract_json_from_response Fixture.fenced_json = JObj [].
Proof.
  refine (proj1 (extract_first_fence (py "Here you go: ") (py "json")
                   (py "{}") (py " Hope this helps.") _ _ _) (JObj []) _).
  - reflexivity.
  - right; reflexivity.
  - reflexivity.
  - reflexivity.
Defined.

(** C3: when the interior of the fence, if there is one, does not parse and
    the whole text does not parse either, the extractor returns the record
    with the two keys [error] and [raw_response], the second holding the
    text it was given. *)
Theorem extract_fallback (text : pystr) :
  (forall g, Re.search text = Some g -> loads g = None) ->
  loads text = None ->
  extract_json_from_response text
  = JObj [ (py "error", JStr (py "Failed to parse response"));
           (py "raw_response", JStr text) ].
Proof.
  intros Hf Hw. unfold extract_json_from_response.
  rewrite Hw.
  destruct (Re.search text) as [g|]; [|reflexivity].
  now rewrite (Hf g eq_refl).
Qed.

Lemma extract_fallback_witness :
  extract_json_from_response []
  = JObj [ (py "error", JStr (py "Failed to parse response"));
           (py "raw_response", JStr []) ].
Proof.
  apply (extract_fallback []).
  - intros g H. vm_compute in H. discriminate.
  - reflexivity.
Defined.

End ExtractorSpec.

(* ================================================================= *)
(** ** The steps and the run *)

Module PipelineSpec.
Import Py Json Eff Agents Main Obs.
#[local] Open Scope run_scope.

#[local] Arguments create_analysis_prompt : simpl never.
#[local] Arguments extract_json_from_response : simpl never.
#[local] Opaque comparison_template.

(** *** The monad, pointwise *)

Lemma bind_ret_r {A} (m : M A) (w : World) : bind m ret w = m w.
Proof. unfold bind, ret. now destruct (m w) as [[a|e] w']. Qed.

Lemma bind_assoc {A B C} (m : M A) (f : A -> M B) (g : B -> M C) (w : World) :
  bind (bind m f) g w = bind m (fun a => bind (f a) g) w.
Proof. unfold bind. now destruct (m w) as [[a|e] w']. Qed.

Lemma bind_ext {A B} (m : M A) (f g : A -> M B) (w : World) :
  (forall a w', f a w' = g a w') -> bind m f w = bind m g w.
Proof. intros H. unfold bind. destruct (m w) as [[a|e] w']; [apply H|reflexivity]. Qed.

Lemma after_after (w : World) (n m : nat) (a b : list event) :
  after (after w n a) m b = after w (m + n) (a ++ b).
Proof.
  unfold after; simpl. now rewrite Nat.add_assoc, app_assoc.
Qed.

(** *** One step

    Each of the three steps renders its template, calls its model once and
    assigns the extracted reply to its own key; an exception of the
    rendering or of the call leaves the step at once. *)
Lemma step_run (env : Env) (k : key) (s : AgentState) (w : World) :
  step_of env k s w =
  match format_messages env (template_of k s) (kwargs_of env k s) with
  | Raise e => (Raise e, w)
  | Ok p =>
      match llm_invoke env (calls w) (llm_of k) p with
      | Raise e => (Raise e, after w 1 [Invoke (llm_of k) p])
      | Ok r =>
          let v := extract_json_from_response r in
          (Ok (set_field k v s), after w 1 [Invoke (llm_of k) p; SetItem k v])
      end
  end.
Proof.
  destruct k;
    unfold step_of, analyze_with_openai, analyze_with_anthropic,
      compare_and_summarize, template_of, kwargs_of, llm_of, gpt, claude,
      render, invoke, setitem, emit, lift, bind, ret, after;
    (destruct (format_messages env _ _) as [p|e]; [|reflexivity]);
    (destruct (llm_invoke env _ _ p) as [r|e]; [|reflexivity]);
    cbv zeta; cbn [calls trace Nat.add]; now rewrite <- app_assoc.
Qed.

(** *** The graph

    The compiled graph of [create_analysis_graph] is the composition of the
    three steps in the order of its edges. *)
Lemma graph_is_chain (env : Env) (s : AgentState) (w : World) :
  graph_invoke (create_analysis_graph env) s w =
  (s1 <- step_of env OpenaiAnalysis s ;;
   s2 <- step_of env AnthropicAnalysis s1 ;;
   step_of env FinalComparison s2) w.
Proof.
  change (graph_invoke (create_analysis_graph env) s)
    with (s1 <- analyze_with_openai env s ;;
          s2 <- analyze_with_anthropic env s1 ;;
          s3 <- compare_and_summarize env s2 ;; ret s3).
  unfold step_of.
  apply bind_ext; intros s1 w1.
  apply bind_ext; intros s2 w2.
  apply bind_ret_r.
Qed.

Lemma bind_cong_l {A B} (m m' : M A) (f : A -> M B) (w : World) :
  m w = m' w -> bind m f w = bind m' f w.
Proof. unfold bind. now intros ->. Qed.

Lemma accepted_iff (text : pystr) :
  accepted text = true <-> (50 <= len (strip text))%Z.
Proof.
  unfold accepted. rewrite negb_true_iff, Z.ltb_ge. reflexivity.
Qed.

(** An accepted text starts the three steps, on a state that holds it. *)
Lemma analyze_text_chain (env : Env) (text : pystr) (topic : option pystr)
  (w : World) :
  accepted text = true ->
  analyze_text env text topic w =
  (s1 <- analyze_with_openai env (initial_state text topic) ;;
   s2 <- analyze_with_anthropic env s1 ;;
   s3 <- compare_and_summarize env s2 ;;
   ret (analysis_dict s3)) w.
Proof.
  intros H. unfold accepted in H. apply negb_true_iff in H.
  unfold analyze_text. rewrite H. cbv zeta.
  rewrite (bind_cong_l _ _ _ _ (graph_is_chain env _ w)).
  rewrite bind_assoc. apply bind_ext; intros s1 w1.
  apply bind_assoc.
Qed.

Lemma analyze_text_rejects (env : Env) (text : pystr) (topic : option pystr)
  (w : World) :
  accepted text = false ->
  analyze_text env text topic w = (Raise (ValueError too_short), w).
Proof.
  intros H. unfold accepted in H. apply negb_false_iff in H.
  unfold analyze_text. now rewrite H.
Qed.

(** The run of an accepted text is the straight line of the specification. *)
Lemma run_refines (env : Env) (text : pystr) (topic : option pystr) (w : World) :
  accepted text = true ->
  analyze_text env text topic w = pipeline_reference env text topic w.
Proof.
  intros H. rewrite (analyze_text_chain env text topic w H).
  unfold pipeline_reference.
  change (analyze_with_openai env) with (step_of env OpenaiAnalysis).
  change (analyze_with_anthropic env) with (step_of env AnthropicAnalysis).
  change (compare_and_summarize env) with (step_of env FinalComparison).
  unfold bind at 1. rewrite step_run.
  cbn [template_of kwargs_of llm_of initial_state Agents.article Agents.topic].
  destruct (format_messages env (create_analysis_prompt text topic) [])
    as [p1|e] eqn:E1; [|reflexivity].
  destruct (llm_invoke env (calls w) gpt p1) as [r1|e]; [|reflexivity].
  cbv zeta. unfold bind at 1. rewrite step_run.
  cbn [template_of kwargs_of llm_of initial_state set_field Agents.article
       Agents.topic after calls Nat.add].
  rewrite E1.
  destruct (llm_invoke env (S (calls w)) claude p1) as [r2|e];
    [|now rewrite after_after].
  cbv zeta. unfold bind at 1. rewrite step_run.
  cbn [template_of llm_of after calls Nat.add].
  destruct (format_messages env comparison_template _) as [p3|e];
    [|now rewrite !after_after].
  destruct (llm_invoke env (S (S (calls w))) gpt p3) as [r3|e];
    [|now rewrite !after_after].
  cbv zeta. unfold ret. now rewrite !after_after.
Qed.

(** The handler passes on the world that [analyze_text] leaves. *)
Lemma analyze_article_world (env : Env) (request : ArticleRequest) (w : World) :
  snd (analyze_article env request w)
  = snd (analyze_text env (text request) (req_topic request) w).
Proof.
  unfold analyze_article.
  now destruct (analyze_text env (text request) (req_topic request) w)
    as [[body|[]] w'].
Qed.

(** *** The shape of a trace *)

Lemma reference_trace (env : Env) (text : pystr) (topic : option pystr) :
  exists n p1 v1 v2 p3 v3,
    trace (snd (pipeline_reference env text topic world0))
    = firstn n (complete_trace p1 v1 p1 v2 p3 v3).
Proof.
  unfold pipeline_reference.
  destruct (format_messages env (create_analysis_prompt text topic) [])
    as [p1|e]; [|now exists 0%nat, [], JNull, JNull, [], JNull].
  destruct (llm_invoke env _ gpt p1) as [r1|e];
    [|now exists 1%nat, p1, JNull, JNull, [], JNull].
  cbv zeta.
  destruct (llm_invoke env _ claude p1) as [r2|e];
    [|now exists 3%nat, p1, (extract_json_from_response r1), JNull, [], JNull].
  destruct (format_messages env comparison_template _) as [p3|e];
    [|now exists 4%nat, p1, (extract_json_from_response r1),
        (extract_json_from_response r2), [], JNull].
  destruct (llm_invoke env _ gpt p3) as [r3|e];
    [|now exists 5%nat, p1, (extract_json_from_response r1),
        (extract_json_from_response r2), p3, JNull].
  now exists 6%nat, p1, (extract_json_from_response r1),
    (extract_json_from_response r2), p3, (extract_json_from_response r3).
Qed.

Lemma run_trace (env : Env) (request : ArticleRequest) :
  exists n p1 v1 v2 p3 v3,
    trace (snd (analyze_article env request world0))
    = firstn n (complete_trace p1 v1 p1 v2 p3 v3).
Proof.
  rewrite analyze_article_world.
  destruct (accepted (text request)) eqn:Ha.
  - rewrite (run_refines _ _ _ _ Ha). apply reference_trace.
  - rewrite (analyze_text_rejects _ _ _ _ Ha).
    now exists 0%nat, [], JNull, JNull, [], JNull.
Qed.

Lemma split_at {A} (l pre post : list A) (e : A) :
  l = pre ++ e :: post ->
  nth_error l (List.length pre) = Some e /\ firstn (List.length pre) l = pre.
Proof.
  intros ->. induction pre as [|x pre [IH1 IH2]]; simpl; [now split|].
  split; [exact IH1 | now rewrite IH2].
Qed.

(** Take the event at each position of a trace of known shape. *)
Ltac positions H :=
  apply split_at in H;
  let Hn := fresh "Hn" in
  let Hf := fresh "Hf" in
  destruct H as [Hn Hf];
  match type of Hn with
  | nth_error _ ?len = _ =>
      generalize dependent len; intros i Hn Hf;
      do 7 (try destruct i as [|i]);
      cbn [nth_error firstn] in Hn, Hf;
      try discriminate Hn;
      injection Hn as Hn; subst
  end.

Lemma prefix_order (n : nat) (p1 p2 p3 : pystr) (v1 v2 v3 : json)
  (tr : list event) :
  tr = firstn n (complete_trace p1 v1 p2 v2 p3 v3) ->
  (forall pre llm p post, tr = pre ++ Invoke llm p :: post ->
     provider_of llm = Anthropic -> written OpenaiAnalysis pre = true)
  /\ (forall pre v post, tr = pre ++ SetItem AnthropicAnalysis v :: post ->
        written OpenaiAnalysis pre = true)
  /\ (forall pre llm p post, tr = pre ++ Invoke llm p :: post ->
        invokes pre = 2%nat ->
        written OpenaiAnalysis pre = true
        /\ written AnthropicAnalysis pre = true)
  /\ (forall pre v post, tr = pre ++ SetItem FinalComparison v :: post ->
        written OpenaiAnalysis pre = true
        /\ written AnthropicAnalysis pre = true).
Proof.
  intros ->. unfold complete_trace.
  do 7 (try destruct n as [|n]); cbn [firstn];
    (split; [|split; [|split]]); intros pre; intros until post; intros H;
    positions H; try discriminate; intros; try discriminate;
    try (split; reflexivity); reflexivity.
Qed.

(** C7: in every run, rejected, failed or complete, the events are an initial
    part of: call of provider A, write of its analysis, call of provider B,
    write of its analysis, call for the synthesis, write of the comparison.
    Hence the call of provider B and the write of its analysis come after
    the write of the first analysis, and the third call and the write of the
    comparison come after both writes. *)
Theorem steps_in_fixed_order (env : Env) (request : ArticleRequest) :
  let tr := trace (snd (analyze_article env request world0)) in
  (exists n p1 v1 p2 v2 p3 v3,
      tr = firstn n [ Invoke gpt p1; SetItem OpenaiAnalysis v1;
                      Invoke claude p2; SetItem AnthropicAnalysis v2;
                      Invoke gpt p3; SetItem FinalComparison v3 ])
  /\ (forall pre llm p post, tr = pre ++ Invoke llm p :: post ->
        provider_of llm = Anthropic -> written OpenaiAnalysis pre = true)
  /\ (forall pre v post, tr = pre ++ SetItem AnthropicAnalysis v :: post ->
        written OpenaiAnalysis pre = true)
  /\ (forall pre llm p post, tr = pre ++ Invoke llm p :: post ->
        invokes pre = 2%nat ->
        written OpenaiAnalysis pre = true
        /\ written AnthropicAnalysis pre = true)
  /\ (forall pre v post, tr = pre ++ SetItem FinalComparison v :: post ->
        written OpenaiAnalysis pre = true
        /\ written AnthropicAnalysis pre = true).
Proof.
  intros tr.
  destruct (run_trace env request) as (n & p1 & v1 & v2 & p3 & v3 & Htr).
  fold tr in Htr. split.
  - now exists n, p1, v1, p1, v2, p3, v3.
  - exact (prefix_order n p1 p1 p3 v1 v2 v3 tr Htr).
Qed.

(** A complete run, every provider refusing: the write of the comparison has
    both analyses written before it. *)
Lemma steps_in_fixed_order_witness :
  written OpenaiAnalysis
    [ Invoke gpt (create_analysis_prompt Fixture.text50 None);
      SetItem OpenaiAnalysis (fallback Fixture.refusal);
      Invoke claude (create_analysis_prompt Fixture.text50 None);
      SetItem AnthropicAnalysis (fallback Fixture.refusal);
      Invoke gpt comparison_template ] = true
  /\ written AnthropicAnalysis
    [ Invoke gpt (create_analysis_prompt Fixture.text50 None);
      SetItem OpenaiAnalysis (fallback Fixture.refusal);
      Invoke claude (create_analysis_prompt Fixture.text50 None);
      SetItem AnthropicAnalysis (fallback Fixture.refusal);
      Invoke gpt comparison_template ] = true.
Proof.
  refine (proj2 (proj2 (proj2 (proj2
    (steps_in_fixed_order Fixture.all_refuse
       {| text := Fixture.text50; req_topic := None |}))))
    _ (fallback Fixture.refusal) [] _).
  vm_compute. reflexivity.
Defined.

(** C9: a step that returns has changed nothing of the state but its own
    analysis key, which it assigns once, after its one provider call; a step
    that raises assigns nothing.  In a run no key is assigned twice, and in a
    complete run each key is assigned exactly once. *)
Theorem steps_write_their_own_field (env : Env) :
  (forall (k : key) (s : AgentState) (w : World),
      match step_of env k s w with
      | (Ok s', w') =>
          article s' = article s
          /\ topic s' = topic s
          /\ messages s' = messages s
          /\ (forall k', k' <> k -> get_field k' s' = get_field k' s)
          /\ exists p, trace w' = trace w ++ [ Invoke (llm_of k) p;
                                               SetItem k (get_field k s') ]
      | (Raise e, w') =>
          exists evs, trace w' = trace w ++ evs
                      /\ forall k', writes k' evs = 0%nat
      end)
  /\ (forall (request : ArticleRequest) (k : key),
      match analyze_article env request world0 with
      | (Returned body, w) => writes k (trace w) = 1%nat
      | (_, w) => (writes k (trace w) <= 1)%nat
      end).
Proof.
  split.
  - intros k s w. rewrite step_run.
    destruct (format_messages env _ _) as [p|e].
    + destruct (llm_invoke env _ _ p) as [r|e]; cbv zeta.
      * repeat split; try (destruct k; reflexivity).
        -- intros k' Hk. destruct k, k'; try reflexivity; congruence.
        -- exists p. destruct k; reflexivity.
      * exists [Invoke (llm_of k) p]. split; [reflexivity|].
        intros k'. reflexivity.
    + exists []. split; [now rewrite app_nil_r|]. intros k'. reflexivity.
  - intros request k.
    pose proof (analyze_article_world env request world0) as Hw.
    unfold analyze_article in *.
    destruct (accepted (text request)) eqn:Ha.
    + rewrite (run_refines _ _ _ _ Ha) in *. clear Hw.
      unfold pipeline_reference.
      destruct (format_messages env _ []) as [p1|e];
        [|destruct e, k; cbn; lia].
      destruct (llm_invoke env _ gpt p1) as [r1|e];
        [|destruct e, k; cbn; lia].
      cbv zeta.
      destruct (llm_invoke env _ claude p1) as [r2|e];
        [|destruct e, k; cbn; lia].
      destruct (format_messages env comparison_template _) as [p3|e];
        [|destruct e, k; cbn; lia].
      destruct (llm_invoke env _ gpt p3) as [r3|e];
        [|destruct e, k; cbn; lia].
      destruct k; reflexivity.
    + rewrite (analyze_text_rejects _ _ _ _ Ha). cbn. lia.
Qed.

Lemma steps_write_their_own_field_witness :
  get_field AnthropicAnalysis
    (set_field OpenaiAnalysis (fallback Fixture.refusal)
       (initial_state Fixture.text50 None))
  = get_field AnthropicAnalysis (initial_state Fixture.text50 None).
Proof.
  pose proof (proj1 (steps_write_their_own_field Fixture.all_refuse)
                OpenaiAnalysis (initial_state Fixture.text50 None) world0) as H.
  vm_compute in H.
  destruct H as (_ & _ & _ & H & _).
  exact (H AnthropicAnalysis ltac:(discriminate)).
Defined.

(** The handler on an accepted text, by the result of the run. *)
Lemma analyze_article_accepted (env : Env) (request : ArticleRequest)
  (w : World) :
  accepted (text request) = true ->
  analyze_article env request w =
  match pipeline_reference env (text request) (req_topic request) w with
  | (Ok body, w') => (Returned body, w')
  | (Raise (ValueError msg), w') => (HTTPException 400 msg, w')
  | (Raise (BaseExceptionOnly msg), w') => (Uncaught (BaseExceptionOnly msg), w')
  | (Raise e, w') =>
      (HTTPException 500 (py "Analysis failed: " ++ exn_str e), w')
  end.
Proof.
  intros Ha. unfold analyze_article. now rewrite (run_refines _ _ _ _ Ha).
Qed.

(** The keyword arguments of the synthesis, after the two analyses. *)
Lemma kwargs_after_two (env : Env) (text : pystr) (topic : option pystr)
  (r1 r2 : pystr) :
  kwargs_of env FinalComparison
    (set_field AnthropicAnalysis (extract_json_from_response r2)
       (set_field OpenaiAnalysis (extract_json_from_response r1)
          (initial_state text topic)))
  = [ (py "openai_analysis",
        VStr (json_dumps env (extract_json_from_response r1)));
      (py "anthropic_analysis",
        VStr (json_dumps env (extract_json_from_response r2)));
      (py "topic", match topic with Some t => VStr t | None => VNone end) ].
Proof. reflexivity. Qed.

(** C4: when the three provider calls return, whatever text they return, the
    handler returns the three extracted values and raises nothing, after all
    three steps have run; and the extraction of the reply
    [I cannot help with that.] is the fallback record that holds it.  So a
    provider that answers with this text leaves that record in its field and
    the run goes on to its end. *)
Theorem parse_failure_is_absorbed (env : Env) (text : pystr)
  (topic : option pystr) (p1 p3 r1 r2 r3 : pystr) :
  accepted text = true ->
  format_messages env (create_analysis_prompt text topic) [] = Ok p1 ->
  llm_invoke env 0 gpt p1 = Ok r1 ->
  llm_invoke env 1 claude p1 = Ok r2 ->
  format_messages env comparison_template
    [ (py "openai_analysis",
        VStr (json_dumps env (extract_json_from_response r1)));
      (py "anthropic_analysis",
        VStr (json_dumps env (extract_json_from_response r2)));
      (py "topic", match topic with Some t => VStr t | None => VNone end) ]
  = Ok p3 ->
  llm_invoke env 2 gpt p3 = Ok r3 ->
  analyze_article env {| text := text; req_topic := topic |} world0
  = (Returned
       (JObj [ (py "openai_analysis", extract_json_from_response r1);
               (py "anthropic_analysis", extract_json_from_response r2);
               (py "final_comparison", extract_json_from_response r3) ]),
     {| calls := 3;
        trace := [ Invoke gpt p1;
                   SetItem OpenaiAnalysis (extract_json_from_response r1);
                   Invoke claude p1;
                   SetItem AnthropicAnalysis (extract_json_from_response r2);
                   Invoke gpt p3;
                   SetItem FinalComparison (extract_json_from_response r3) ] |})
  /\ extract_json_from_response (py "I cannot help with that.")
     = JObj [ (py "error", JStr (py "Failed to parse response"));
              (py "raw_response", JStr (py "I cannot help with that.")) ].
Proof.
  intros Ha H1 H2 H3 H4 H5. split; [|vm_compute; reflexivity].
  rewrite (analyze_article_accepted env {| text := text; req_topic := topic |}
             world0 Ha).
  unfold pipeline_reference. cbn [Main.text req_topic world0 calls].
  rewrite H1, H2. cbv zeta. rewrite H3.
  rewrite (kwargs_after_two env text topic r1 r2), H4, H5. reflexivity.
Qed.

(** The first provider refuses, the others too: the run is complete and the
    field of the first analysis is the fallback record. *)
Lemma parse_failure_is_absorbed_witness :
  fst (analyze_article Fixture.all_refuse
         {| text := Fixture.text50; req_topic := None |} world0)
  = Returned
      (JObj [ (py "openai_analysis", fallback Fixture.refusal);
              (py "anthropic_analysis", fallback Fixture.refusal);
              (py "final_comparison", fallback Fixture.refusal) ]).
Proof.
  pose proof (parse_failure_is_absorbed Fixture.all_refuse Fixture.text50 None
                (create_analysis_prompt Fixture.text50 None)
                comparison_template
                Fixture.refusal Fixture.refusal Fixture.refusal
                eq_refl eq_refl eq_refl eq_refl eq_refl eq_refl) as [H Hx].
  rewrite H. cbn [fst].
  change (py "I cannot help with that.") with Fixture.refusal in Hx.
  rewrite Hx. reflexivity.
Defined.

(** C5: an exception of a provider call leaves the step that made the call,
    with no assignment.  When the call that fails is the first, the second or
    the third of a run and the exception is a transport error, the handler
    raises [HTTPException] with status 500 and the text of the error; the
    trace ends with the failed call, and no analysis is returned. *)
Theorem transport_error_halts (env : Env) (text : pystr)
  (topic : option pystr) (kind : transport_kind) (msg p1 : pystr) :
  accepted text = true ->
  format_messages env (create_analysis_prompt text topic) [] = Ok p1 ->
  let request := {| text := text; req_topic := topic |} in
  let oops := Raise (TransportError kind msg) in
  let http500 := HTTPException 500 (py "Analysis failed: " ++ msg) in
  (forall k s w p e,
      format_messages env (template_of k s) (kwargs_of env k s) = Ok p ->
      llm_invoke env (calls w) (llm_of k) p = Raise e ->
      step_of env k s w = (Raise e, after w 1 [Invoke (llm_of k) p]))
  /\ (llm_invoke env 0 gpt p1 = oops ->
      analyze_article env request world0
      = (http500, {| calls := 1; trace := [Invoke gpt p1] |}))
  /\ (forall r1,
      llm_invoke env 0 gpt p1 = Ok r1 ->
      llm_invoke env 1 claude p1 = oops ->
      analyze_article env request world0
      = (http500,
         {| calls := 2;
            trace := [ Invoke gpt p1;
                       SetItem OpenaiAnalysis (extract_json_from_response r1);
                       Invoke claude p1 ] |}))
  /\ (forall r1 r2 p3,
      llm_invoke env 0 gpt p1 = Ok r1 ->
      llm_invoke env 1 claude p1 = Ok r2 ->
      format_messages env comparison_template
        [ (py "openai_analysis",
            VStr (json_dumps env (extract_json_from_response r1)));
          (py "anthropic_analysis",
            VStr (json_dumps env (extract_json_from_response r2)));
          (py "topic", match topic with Some t => VStr t | None => VNone end) ]
      = Ok p3 ->
      llm_invoke env 2 gpt p3 = oops ->
      analyze_article env request world0
      = (http500,
         {| calls := 3;
            trace := [ Invoke gpt p1;
                       SetItem OpenaiAnalysis (extract_json_from_response r1);
                       Invoke claude p1;
                       SetItem AnthropicAnalysis (extract_json_from_response r2);
                       Invoke gpt p3 ] |})).
Proof.
  intros Ha H1 request oops http500.
  assert (Hrun := analyze_article_accepted env request world0 Ha).
  unfold pipeline_reference in Hrun.
  cbn [Main.text req_topic request world0 calls] in Hrun.
  rewrite H1 in Hrun.
  split; [|split; [|split]].
  - intros k s w p e Hp He. now rewrite step_run, Hp, He.
  - intros H2. rewrite Hrun, H2. reflexivity.
  - intros r1 H2 H3. rewrite Hrun, H2. cbv zeta. rewrite H3. reflexivity.
  - intros r1 r2 p3 H2 H3 H4 H5. rewrite Hrun, H2. cbv zeta. rewrite H3.
    rewrite (kwargs_after_two env text topic r1 r2), H4, H5. reflexivity.
Qed.

(** A timeout at the second provider call: status 500, after three events. *)
Lemma transport_error_halts_witness :
  analyze_article (Fixture.timeout_at 1)
    {| text := Fixture.text50; req_topic := None |} world0
  = (HTTPException 500 (py "Analysis failed: Request timed out."),
     {| calls := 2;
        trace := [ Invoke gpt (create_analysis_prompt Fixture.text50 None);
                   SetItem OpenaiAnalysis (JObj []);
                   Invoke claude (create_analysis_prompt Fixture.text50 None) ] |}).
Proof.
  exact (proj1 (proj2 (proj2
    (transport_error_halts (Fixture.timeout_at 1) Fixture.text50 None TimedOut
       (py "Request timed out.") (create_analysis_prompt Fixture.text50 None)
       eq_refl eq_refl))) (py "{}") eq_refl eq_refl).
Defined.

(** C6: a text whose trimmed length is below 50, 49 included, makes the
    handler raise [HTTPException] with status 400 and leaves the world as it
    was: no provider call, no event.  A text whose trimmed length is 50 or
    more passes the check, and [analyze_text] then is the run of the three
    steps from the initial state, the step of provider A first. *)
Theorem validation_boundary (env : Env) (request : ArticleRequest) (w : World) :
  ((len (strip (text request)) < 50)%Z ->
   analyze_article env request w = (HTTPException 400 too_short, w))
  /\ ((50 <= len (strip (text request)))%Z ->
      analyze_text env (text request) (req_topic request) w =
      (s1 <- analyze_with_openai env
               (initial_state (text request) (req_topic request)) ;;
       s2 <- analyze_with_anthropic env s1 ;;
       s3 <- compare_and_summarize env s2 ;;
       ret (analysis_dict s3)) w).
Proof.
  split; intros H.
  - unfold analyze_article, analyze_text.
    apply Z.ltb_lt in H. now rewrite H.
  - apply analyze_text_chain, accepted_iff, H.
Qed.

(** Forty-nine letters between two spaces are refused, though the text has
    fifty-one characters; fifty letters are accepted. *)
Lemma validation_boundary_witness :
  (len (strip ([32] ++ Fixture.text49 ++ [32])) = 49%Z
   /\ analyze_article Fixture.all_refuse
        {| text := [32] ++ Fixture.text49 ++ [32]; req_topic := None |} world0
      = (HTTPException 400 too_short, world0))
  /\ (len (strip Fixture.text50) = 50%Z
      /\ analyze_text Fixture.all_refuse Fixture.text50 None world0 =
         (s1 <- analyze_with_openai Fixture.all_refuse
                  (initial_state Fixture.text50 None) ;;
          s2 <- analyze_with_anthropic Fixture.all_refuse s1 ;;
          s3 <- compare_and_summarize Fixture.all_refuse s2 ;;
          ret (analysis_dict s3)) world0).
Proof.
  split; (split; [reflexivity|]).
  - apply (proj1 (validation_boundary Fixture.all_refuse
             {| text := [32] ++ Fixture.text49 ++ [32]; req_topic := None |}
             world0)).
    reflexivity.
  - apply (proj2 (validation_boundary Fixture.all_refuse
             {| text := Fixture.text50; req_topic := None |} world0)).
    discriminate.
Defined.

(** C8: the prompt is a function of the article and the topic, so equal
    arguments give equal prompts; and with no topic, or an empty one, the
    fixed phrase [the main theme suggested by this content] stands where the
    topic would, after [Target Topic/Search Term: ]. *)
Theorem prompt_is_deterministic (article article' : pystr)
  (topic topic' : option pystr) :
  article = article' -> topic = topic' ->
  create_analysis_prompt article topic = create_analysis_prompt article' topic'
  /\ create_analysis_prompt article None
     = prompt_head ++ article ++ prompt_before_topic
       ++ py "the main theme suggested by this content" ++ prompt_sections
  /\ create_analysis_prompt article (Some [])
     = create_analysis_prompt article None
  /\ prompt_before_topic = [10; 10] ++ py "Target Topic/Search Term: ".
Proof.
  intros -> ->. repeat split.
Qed.

Lemma prompt_is_deterministic_witness :
  create_analysis_prompt Fixture.text50 (Some (py "renewable energy policy"))
  = create_analysis_prompt (repeat 97 50)
      (Some (py "renewable energy " ++ py "policy")).
Proof.
  exact (proj1 (prompt_is_deterministic Fixture.text50 (repeat 97 50)
                  (Some (py "renewable energy policy"))
                  (Some (py "renewable energy " ++ py "policy"))
                  eq_refl eq_refl)).
Defined.

(** C10: for an accepted text the state the steps receive holds the text as
    it was given, and the first two provider calls of the run are made with
    the rendering of the prompt built on that text: the trimming serves the
    length check only. *)
Theorem article_is_untrimmed (env : Env) (text : pystr) (topic : option pystr) :
  (50 <= len (strip text))%Z ->
  let tr := trace (snd (analyze_text env text topic world0)) in
  article (initial_state text topic) = text
  /\ analyze_text env text topic world0 =
     (s1 <- analyze_with_openai env (initial_state text topic) ;;
      s2 <- analyze_with_anthropic env s1 ;;
      s3 <- compare_and_summarize env s2 ;;
      ret (analysis_dict s3)) world0
  /\ (forall pre llm p post, tr = pre ++ Invoke llm p :: post ->
        (invokes pre < 2)%nat ->
        format_messages env
          (prompt_head ++ text ++ prompt_before_topic ++ topic_context topic
           ++ prompt_sections) [] = Ok p).
Proof.
  intros H tr. apply accepted_iff in H.
  split; [reflexivity|]. split; [now apply analyze_text_chain|].
  subst tr. rewrite (run_refines _ _ _ _ H). unfold pipeline_reference.
  fold (create_analysis_prompt text topic).
  destruct (format_messages env (create_analysis_prompt text topic) [])
    as [p1|e] eqn:E1.
  2:{ intros pre llm p post Hs. cbn in Hs. now destruct pre. }
  destruct (llm_invoke env _ gpt p1) as [r1|e].
  2:{ intros pre llm p post Hs _. cbn [snd trace after world0 app] in Hs.
      positions Hs. reflexivity. }
  cbv zeta.
  destruct (llm_invoke env _ claude p1) as [r2|e].
  2:{ intros pre llm p post Hs _. cbn [snd trace after world0 app] in Hs.
      positions Hs; reflexivity. }
  destruct (format_messages env comparison_template _) as [p3|e].
  2:{ intros pre llm p post Hs _. cbn [snd trace after world0 app] in Hs.
      positions Hs; reflexivity. }
  destruct (llm_invoke env _ gpt p3) as [r3|e].
  - intros pre llm p post Hs Hlt.
    cbn [snd trace after world0 app complete_trace] in Hs.
    positions Hs; try reflexivity. cbn in Hlt. lia.
  - intros pre llm p post Hs Hlt.
    cbn [snd trace after world0 app complete_trace] in Hs.
    positions Hs; try reflexivity. cbn in Hlt. lia.
Qed.

(** A text of fifty letters between two spaces and a line feed: the state
    and the prompt hold the spaces and the line feed. *)
Lemma article_is_untrimmed_witness :
  strip Fixture.padded = Fixture.text50
  /\ article (initial_state Fixture.padded None) = Fixture.padded
  /\ format_messages Fixture.all_refuse
       (prompt_head ++ Fixture.padded ++ prompt_before_topic
        ++ topic_context None ++ prompt_sections) []
     = Ok (create_analysis_prompt Fixture.padded None).
Proof.
  split; [reflexivity|].
  pose proof (article_is_untrimmed Fixture.all_refuse Fixture.padded None
                ltac:(discriminate)) as (H1 & _ & H3).
  split; [exact H1|].
  apply (H3 [] gpt (create_analysis_prompt Fixture.padded None)
            (skipn 1 (trace (snd (analyze_text Fixture.all_refuse
                                    Fixture.padded None world0))))).
  - vm_compute. reflexivity.
  - cbn. lia.
Defined.

End PipelineSpec.

(* ================================================================= *)
(** ** More on the extractor *)

Module ExtractorExtra.
Import Py Json Eff Agents Obs Shape JsonSpec ExtractorSpec.

#[local] Arguments N.eqb : simpl nomatch.
#[local] Arguments N.leb : simpl nomatch.
#[local] Arguments N.ltb : simpl nomatch.

Lemma tq_no_tick (l : pystr) : no_tick l = true -> ticks_quoted l.
Proof.
  intros H a b ->. unfold no_tick in H. rewrite forallb_app in H.
  apply andb_prop in H as [_ H]. simpl in H. discriminate.
Qed.

Lemma tq_app (x y : pystr) :
  ticks_quoted x -> ticks_quoted y -> ticks_quoted (x ++ y).
Proof.
  intros Hx Hy a b E.
  apply app_eq_app in E as [l [[E1 E2] | [E1 E2]]].
  - (* x = a ++ l, 96 :: b = l ++ y *)
    destruct l as [|c l].
    + simpl in E2. destruct (Hy [] b (eq_sym E2)) as (b1 & b2 & -> & Hn).
      now exists b1, b2.
    + simpl in E2. injection E2 as <- ->.
      destruct (Hx a l E1) as (b1 & b2 & -> & Hn).
      exists b1, (b2 ++ y). split; [|exact Hn].
      now rewrite <- app_assoc.
  - (* a = x ++ l, y = l ++ 96 :: b *)
    destruct (Hy l b E2) as (b1 & b2 & -> & Hn). now exists b1, b2.
Qed.

Lemma no_newline_app (x y : pystr) :
  no_newline (x ++ y) = no_newline x && no_newline y.
Proof. apply forallb_app. Qed.

(** The inside of a string literal with its closing quote. *)
Lemma tq_literal (raw : pystr) :
  no_newline raw = true -> ticks_quoted (raw ++ [34]).
Proof.
  intros Hn a b E.
  apply app_eq_app in E as [l [[E1 E2] | [E1 E2]]].
  - destruct l as [|c l]; [discriminate|].
    simpl in E2. injection E2 as <- ->.
    exists l, []. split; [reflexivity|].
    subst raw. rewrite no_newline_app in Hn.
    apply andb_prop in Hn as [_ Hn]. exact Hn.
  - destruct l as [|c l]; [discriminate|].
    simpl in E2. injection E2 as _ E2. destruct l; discriminate.
Qed.

Lemma tq_cons (c : N) (l : pystr) :
  (c =? 96) = false -> ticks_quoted l -> ticks_quoted (c :: l).
Proof.
  intros Hc Hl. apply (tq_app [c] l); [|exact Hl].
  apply tq_no_tick. unfold no_tick. simpl. now rewrite Hc.
Qed.

Lemma skip_ws_split (s : pystr) :
  exists ws, s = ws ++ skip_ws s /\ no_tick ws = true.
Proof.
  induction s as [|c t (ws & E & Hn)]; [now exists []|].
  simpl. destruct (is_ws c) eqn:Ew.
  - exists (c :: ws). split; [simpl; now rewrite <- E|].
    unfold no_tick. simpl. fold (no_tick ws). rewrite Hn, andb_true_r.
    destruct (c =? 96) eqn:Ec; [|reflexivity].
    apply N.eqb_eq in Ec. subst c. discriminate.
  - now exists [].
Qed.

Lemma hex_digit_nl (c x : N) : hex_digit c = Some x -> (c =? 10) = false.
Proof.
  intros H. destruct (c =? 10) eqn:E; [|reflexivity].
  apply N.eqb_eq in E. subst c. discriminate.
Qed.

Lemma hex4_nl (a b c d u : N) :
  hex4 a b c d = Some u ->
  (a =? 10) = false /\ (b =? 10) = false /\ (c =? 10) = false
  /\ (d =? 10) = false.
Proof.
  unfold hex4. intros H.
  destruct (hex_digit a) eqn:Ea; [|discriminate].
  destruct (hex_digit b) eqn:Eb; [|discriminate].
  destruct (hex_digit c) eqn:Ec; [|discriminate].
  destruct (hex_digit d) eqn:Ed; [|discriminate].
  repeat split; eapply hex_digit_nl; eassumption.
Qed.

Lemma unescape_nl (e x : N) : unescape e = Some x -> (e =? 10) = false.
Proof.
  intros H. destruct (e =? 10) eqn:E; [|reflexivity].
  apply N.eqb_eq in E. subst e. discriminate.
Qed.

Lemma not_control_nl (c : N) : (c <? 32) = false -> (c =? 10) = false.
Proof.
  intros H. destruct (c =? 10) eqn:E; [|reflexivity].
  apply N.eqb_eq in E. subst c. discriminate.
Qed.

Lemma no_newline_cons (c : N) (l : pystr) :
  (c =? 10) = false -> no_newline l = true -> no_newline (c :: l) = true.
Proof. intros Hc Hl. unfold no_newline in *. simpl. now rewrite Hc, Hl. Qed.

(** What [scanstring] reads, up to the closing quote, holds no line feed. *)
Lemma scanstring_split (s x r : pystr) :
  scanstring s = Some (x, r) ->
  exists raw, s = raw ++ 34 :: r /\ no_newline raw = true.
Proof.
  remember (List.length s) as n eqn:Hn.
  revert s x r Hn. induction n as [n IH] using lt_wf_ind.
  intros s x r Hn H.
  destruct s as [|c t]; [discriminate|].
  cbn [List.length] in Hn. cbn [scanstring] in H.
  destruct (c =? 34) eqn:E34.
  { injection H as <- <-. apply N.eqb_eq in E34. subst c. now exists []. }
  destruct (c =? 92) eqn:E92.
  2:{ destruct (c <? 32) eqn:Ec; [discriminate|].
      apply cons_fst_some in H as (l' & H & _).
      destruct (IH (List.length t) ltac:(lia) t l' r eq_refl H)
        as (raw & -> & Hr).
      exists (c :: raw). split; [reflexivity|].
      apply no_newline_cons; [now apply not_control_nl | exact Hr]. }
  apply N.eqb_eq in E92. subst c.
  destruct t as [|e t1]; [discriminate|].
  destruct (e =? 117) eqn:E117.
  2:{ destruct (unescape e) eqn:Eu; [|discriminate].
      apply cons_fst_some in H as (l' & H & _).
      destruct (IH (List.length t1) ltac:(cbn [List.length] in *; lia)
                  t1 l' r eq_refl H) as (raw & -> & Hr).
      exists (92 :: e :: raw). split; [reflexivity|].
      apply no_newline_cons; [reflexivity|].
      apply no_newline_cons; [now apply unescape_nl in Eu | exact Hr]. }
  apply N.eqb_eq in E117. subst e.
  destruct t1 as [|h1 [|h2 [|h3 [|h4 t2]]]]; try discriminate.
  destruct (hex4 h1 h2 h3 h4) as [uni|] eqn:Eh; [|discriminate].
  destruct (hex4_nl _ _ _ _ _ Eh) as (N1 & N2 & N3 & N4).
  assert (Ht2 : forall l', scanstring t2 = Some (l', r) ->
            exists raw, 92 :: 117 :: h1 :: h2 :: h3 :: h4 :: t2 = raw ++ 34 :: r
                        /\ no_newline raw = true).
  { intros l' H'.
    destruct (IH (List.length t2) ltac:(cbn [List.length] in *; lia)
                t2 l' r eq_refl H') as (raw & -> & Hr).
    exists (92 :: 117 :: h1 :: h2 :: h3 :: h4 :: raw). split; [reflexivity|].
    repeat (apply no_newline_cons; [first [reflexivity | assumption]|]).
    exact Hr. }
  destruct (is_high_surrogate uni).
  2:{ apply cons_fst_some in H as (l' & H & _). eauto. }
  destruct t2 as [|b [|u [|g1 [|g2 [|g3 [|g4 t3]]]]]];
    try (apply cons_fst_some in H as (l' & H & _); eauto; fail).
  destruct ((b =? 92) && (u =? 117)) eqn:Ebu.
  2:{ apply cons_fst_some in H as (l' & H & _). eauto. }
  apply andb_prop in Ebu as [Eb Eu].
  apply N.eqb_eq in Eb. apply N.eqb_eq in Eu. subst b u.
  destruct (hex4 g1 g2 g3 g4) as [uni2|] eqn:Eg; [|discriminate].
  destruct (hex4_nl _ _ _ _ _ Eg) as (M1 & M2 & M3 & M4).
  destruct (is_low_surrogate uni2).
  2:{ apply cons_fst_some in H as (l' & H & _). eauto. }
  apply cons_fst_some in H as (l' & H & _).
  destruct (IH (List.length t3) ltac:(cbn [List.length] in *; lia)
              t3 l' r eq_refl H) as (raw & -> & Hr).
  exists (92 :: 117 :: h1 :: h2 :: h3 :: h4 :: 92 :: 117 :: g1 :: g2 :: g3
          :: g4 :: raw).
  split; [reflexivity|].
  repeat (apply no_newline_cons; [first [reflexivity | assumption]|]).
  exact Hr.
Qed.

Lemma no_tick_app (x y : pystr) : no_tick (x ++ y) = no_tick x && no_tick y.
Proof. apply forallb_app. Qed.

Lemma no_tick_cons (c : N) (l : pystr) :
  (c =? 96) = false -> no_tick l = true -> no_tick (c :: l) = true.
Proof. intros Hc Hl. unfold no_tick in *. simpl. now rewrite Hc, Hl. Qed.

Lemma digit_no_tick (c : N) : is_digit c = true -> (c =? 96) = false.
Proof.
  intros H. destruct (c =? 96) eqn:E; [|reflexivity].
  apply N.eqb_eq in E. subst c. discriminate.
Qed.

Lemma span_digits_split (s ds r : pystr) :
  span_digits s = (ds, r) -> s = ds ++ r /\ no_tick ds = true.
Proof.
  revert ds r. induction s as [|c t IH]; intros ds r H; simpl in H.
  - injection H as <- <-. now split.
  - destruct (is_digit c) eqn:Ed.
    + destruct (span_digits t) as [ds' r'] eqn:E.
      injection H as <- <-. destruct (IH _ _ eq_refl) as [-> Hn].
      split; [reflexivity|]. apply no_tick_cons; [now apply digit_no_tick|exact Hn].
    + injection H as <- <-. now split.
Qed.

Lemma match_integer_split (s l r : pystr) :
  match_integer s = Some (l, r) -> s = l ++ r /\ no_tick l = true.
Proof.
  unfold match_integer. intros H.
  assert (B : forall sign u,
     no_tick sign = true ->
     match u with
     | c :: t => if c =? 48 then Some (sign ++ [c], t)
                 else if is_digit c then let (ds, r') := span_digits t in Some (sign ++ c :: ds, r')
                 else None
     | [] => None
     end = Some (l, r) -> sign ++ u = l ++ r /\ no_tick l = true).
  { intros sign [|c t] Hs Hb; [discriminate|].
    destruct (c =? 48) eqn:E48.
    - injection Hb as <- <-. split; [now rewrite <- app_assoc|].
      rewrite no_tick_app, Hs. apply N.eqb_eq in E48. now subst c.
    - destruct (is_digit c) eqn:Ed; [|discriminate].
      destruct (span_digits t) as [ds r'] eqn:E.
      injection Hb as <- <-. destruct (span_digits_split _ _ _ E) as [-> Hn].
      split; [now rewrite <- app_assoc|].
      rewrite no_tick_app, Hs. apply no_tick_cons; [now apply digit_no_tick|exact Hn]. }
  destruct s as [|c t]; [discriminate|].
  destruct (c =? 45) eqn:E45.
  - apply N.eqb_eq in E45. subst c. exact (B [45] t eq_refl H).
  - exact (B [] (c :: t) eq_refl H).
Qed.

Lemma match_frac_split (s f r : pystr) :
  match_frac s = (f, r) -> s = f ++ r /\ no_tick f = true.
Proof.
  unfold match_frac. intros H.
  destruct s as [|c t]; [injection H as <- <-; now split|].
  destruct (c =? 46) eqn:Ec; [|injection H as <- <-; now split].
  apply N.eqb_eq in Ec. subst c.
  destruct (span_digits t) as [[|d ds] r'] eqn:E.
  - injection H as <- <-. now split.
  - injection H as <- <-. destruct (span_digits_split _ _ _ E) as [-> Hn].
    split; [reflexivity|]. now apply no_tick_cons.
Qed.

Lemma match_exp_split (s f r : pystr) :
  match_exp s = (f, r) -> s = f ++ r /\ no_tick f = true.
Proof.
  unfold match_exp. intros H.
  destruct s as [|c t]; [injection H as <- <-; now split|].
  destruct ((c =? 101) || (c =? 69)) eqn:Ec; [|injection H as <- <-; now split].
  assert (Hc : (c =? 96) = false).
  { destruct (c =? 96) eqn:E; [|reflexivity].
    apply N.eqb_eq in E. subst c. discriminate. }
  destruct t as [|d t''].
  - cbn in H. injection H as <- <-. now split.
  - destruct ((d =? 43) || (d =? 45)) eqn:Ed.
    + assert (Hd : (d =? 96) = false).
      { destruct (d =? 96) eqn:E; [|reflexivity].
        apply N.eqb_eq in E. subst d. discriminate. }
      destruct (span_digits t'') as [[|x ds] r'] eqn:E;
        injection H as <- <-; [now split|].
      destruct (span_digits_split _ _ _ E) as [-> Hn].
      split; [reflexivity|].
      apply no_tick_cons; [exact Hc|]. now apply no_tick_cons.
    + destruct (span_digits (d :: t'')) as [[|x ds] r'] eqn:E;
        injection H as <- <-; [now split|].
      destruct (span_digits_split _ _ _ E) as [E' Hn].
      split; [simpl; now rewrite E'|].
      now apply no_tick_cons.
Qed.

Lemma match_number_split (s : pystr) (v : json) (r : pystr) :
  match_number s = Some (v, r) -> exists l, s = l ++ r /\ no_tick l = true.
Proof.
  unfold match_number. intros H.
  destruct (match_integer s) as [[i r1]|] eqn:Ei; [|discriminate].
  destruct (match_frac r1) as [f r2] eqn:Ef.
  destruct (match_exp r2) as [e r3] eqn:Ee.
  destruct (match_integer_split _ _ _ Ei) as [-> Hi].
  destruct (match_frac_split _ _ _ Ef) as [-> Hf].
  destruct (match_exp_split _ _ _ Ee) as [-> He].
  exists (i ++ f ++ e).
  assert (r = r3) as -> by (destruct f, e; now injection H as <- <-).
  split; [now rewrite <- !app_assoc|].
  now rewrite !no_tick_app, Hi, Hf, He.
Qed.

Lemma literal_split (lit : string) (v v' : json) (s r : pystr) :
  literal lit v s = Some (v', r) -> s = py lit ++ r.
Proof.
  unfold literal.
  destruct (strip_prefix (py lit) s) as [r'|] eqn:E; [|discriminate].
  intros H. injection H as <- <-. now apply strip_prefix_some.
Qed.

Lemma scan_scalar_split (s : pystr) (v : json) (r : pystr) :
  scan_scalar s = Some (v, r) -> exists l, s = l ++ r /\ no_tick l = true.
Proof.
  unfold scan_scalar, or_else. intros H.
  repeat match type of H with
         | match ?x with _ => _ end = _ =>
             let E := fresh "E" in
             destruct x as [[? ?]|] eqn:E;
             [ injection H as <- <-;
               first [ apply literal_split in E; eexists; split; [exact E|reflexivity]
                     | now apply match_number_split in E ]
             | ]
         end.
  apply literal_split in H. eexists; split; [exact H|reflexivity].
Qed.

Ltac reassoc := repeat rewrite <- app_assoc; cbn [app]; reflexivity.

Ltac quoted :=
  repeat first
    [ assumption
    | apply tq_literal; assumption
    | apply tq_no_tick; first [assumption | reflexivity]
    | apply tq_app ].

Lemma one_no_tick (d x : N) : (d =? x) = true -> (x =? 96) = false ->
  no_tick [d] = true.
Proof.
  intros E H. apply N.eqb_eq in E. subst d. unfold no_tick. simpl.
  now rewrite H.
Qed.

Lemma scan_reads_quoted (n : nat) : reads_quoted n.
Proof.
  induction n as [|n (IHs & IHa & IHo)]; [repeat split; discriminate|].
  split; [|split].
  - intros s v r H. cbn [scan_once] in H.
    destruct s as [|c t]; [discriminate|].
    destruct (c =? 34) eqn:E34.
    { destruct (scanstring t) as [[str r']|] eqn:Es; [|discriminate].
      injection H as <- <-.
      destruct (scanstring_split _ _ _ Es) as (raw & -> & Hr).
      exists ([c] ++ (raw ++ [34])). split; [reassoc|].
      pose proof (one_no_tick c 34 E34 eq_refl). quoted. }
    destruct (c =? 123) eqn:E123.
    { destruct (skip_ws_split t) as (ws & Et & Hws).
      destruct (skip_ws t) as [|d r0] eqn:Ew; [discriminate|]. subst t.
      pose proof (one_no_tick c 123 E123 eq_refl).
      destruct (d =? 125) eqn:E125.
      { injection H as <- <-.
        exists ([c] ++ ws ++ [d]). split; [reassoc|].
        pose proof (one_no_tick d 125 E125 eq_refl). quoted. }
      destruct (d =? 34) eqn:Eq; [|discriminate].
      destruct (IHo _ _ _ _ H) as (c' & -> & Hc').
      exists ([c] ++ ws ++ [d] ++ c'). split; [reassoc|].
      pose proof (one_no_tick d 34 Eq eq_refl). quoted. }
    destruct (c =? 91) eqn:E91.
    { destruct (skip_ws_split t) as (ws & Et & Hws).
      destruct (skip_ws t) as [|d r0] eqn:Ew; [discriminate|]. subst t.
      pose proof (one_no_tick c 91 E91 eq_refl).
      destruct (d =? 93) eqn:E93.
      { injection H as <- <-.
        exists ([c] ++ ws ++ [d]). split; [reassoc|].
        pose proof (one_no_tick d 93 E93 eq_refl). quoted. }
      destruct (IHa _ _ _ _ H) as (c' & E' & Hc').
      exists ([c] ++ ws ++ c'). split; [rewrite E'; reassoc|]. quoted. }
    destruct (scan_scalar_split _ _ _ H) as (l & E & Hl).
    exists l. split; [exact E|]. quoted.
  - intros s acc v r H. cbn [array_items] in H.
    destruct (scan_once n s) as [[v1 r1]|] eqn:Es; [|discriminate].
    destruct (IHs _ _ _ Es) as (c1 & -> & Hc1).
    destruct (skip_ws_split r1) as (ws & Er1 & Hws).
    destruct (skip_ws r1) as [|d r'] eqn:Ew; [discriminate|]. subst r1.
    destruct (d =? 93) eqn:E93.
    { injection H as <- <-.
      exists (c1 ++ ws ++ [d]). split; [reassoc|].
      pose proof (one_no_tick d 93 E93 eq_refl). quoted. }
    destruct (d =? 44) eqn:E44; [|discriminate].
    destruct (skip_ws_split r') as (ws' & Er' & Hws').
    destruct (IHa _ _ _ _ H) as (c2 & E2 & Hc2).
    rewrite E2 in Er'. subst r'.
    exists (c1 ++ ws ++ [d] ++ ws' ++ c2). split; [reassoc|].
    pose proof (one_no_tick d 44 E44 eq_refl). quoted.
  - intros s acc v r H. cbn [object_members] in H.
    destruct (scanstring s) as [[key r0]|] eqn:Ek; [|discriminate].
    destruct (scanstring_split _ _ _ Ek) as (raw & -> & Hraw).
    destruct (skip_ws_split r0) as (ws0 & Er0 & Hws0).
    destruct (skip_ws r0) as [|d r1] eqn:Ew0; [discriminate|]. subst r0.
    destruct (d =? 58) eqn:E58; [|discriminate].
    pose proof (one_no_tick d 58 E58 eq_refl).
    destruct (skip_ws_split r1) as (ws1 & Er1 & Hws1).
    destruct (scan_once n (skip_ws r1)) as [[v1 r2]|] eqn:Es; [|discriminate].
    destruct (IHs _ _ _ Es) as (c1 & E1 & Hc1).
    rewrite E1 in Er1. subst r1.
    destruct (skip_ws_split r2) as (ws2 & Er2 & Hws2).
    destruct (skip_ws r2) as [|e r3] eqn:Ew2; [discriminate|]. subst r2.
    destruct (e =? 125) eqn:E125.
    { injection H as <- <-.
      exists ((raw ++ [34]) ++ ws0 ++ [d] ++ ws1 ++ c1 ++ ws2 ++ [e]).
      split; [reassoc|].
      pose proof (one_no_tick e 125 E125 eq_refl). quoted. }
    destruct (e =? 44) eqn:E44; [|discriminate].
    destruct (skip_ws_split r3) as (ws3 & Er3 & Hws3).
    destruct (skip_ws r3) as [|q r4] eqn:Ew3; [discriminate|]. subst r3.
    destruct (q =? 34) eqn:Eq; [|discriminate].
    destruct (IHo _ _ _ _ H) as (c2 & -> & Hc2).
    exists ((raw ++ [34]) ++ ws0 ++ [d] ++ ws1 ++ c1 ++ ws2 ++ [e] ++ ws3
            ++ [q] ++ c2).
    split; [reassoc|].
    pose proof (one_no_tick e 44 E44 eq_refl).
    pose proof (one_no_tick q 34 Eq eq_refl). quoted.
Qed.

(** In a text that [json.loads] accepts every backtick is quoted. *)
Lemma loads_ticks_quoted (text : pystr) (v : json) :
  loads text = Some v -> ticks_quoted text.
Proof.
  unfold loads. intros H.
  assert (H' : match scan_once (2 * List.length text + 2) (skip_ws text) with
               | Some (v, r) => match skip_ws r with [] => Some v | _ :: _ => None end
               | None => None
               end = Some v).
  { destruct text as [|c t]; [exact H|].
    destruct c as [|p]; [exact H|].
    revert H. generalize (2 * List.length (N.pos p :: t) + 2)%nat.
    intros fuel H.
    repeat (destruct p as [p|p|]; try exact H; try discriminate H). }
  clear H.
  destruct (scan_once _ (skip_ws text)) as [[v' r]|] eqn:Es; [|discriminate].
  destruct (proj1 (scan_reads_quoted _) _ _ _ Es) as (c & Ec & Hc).
  destruct (skip_ws_split text) as (ws & Et & Hws).
  destruct (skip_ws_split r) as (ws' & Er & Hws').
  destruct (skip_ws r); [|discriminate].
  rewrite Ec in Et. rewrite Er, app_nil_r in Et. rewrite Et. quoted.
Qed.

(** A text that holds an opening fence has a backtick that is not quoted. *)
Lemma fence_not_quoted (pre tag rest : pystr) :
  tag = [] \/ tag = py "json" ->
  ~ ticks_quoted (pre ++ Re.ticks ++ tag ++ [10] ++ rest).
Proof.
  intros Htag Hq.
  destruct (Hq (pre ++ [96; 96]) (tag ++ 10 :: rest)) as (b1 & b2 & E & Hn).
  { unfold Re.ticks. now rewrite <- app_assoc. }
  destruct Htag as [-> | ->].
  - destruct b1 as [|c b1]; [discriminate|].
    injection E as <- _. discriminate.
  - do 5 (destruct b1 as [|? b1]; [discriminate|]; injection E as <- E).
    discriminate.
Qed.

Lemma opening_fence_not_json (pre tag rest : pystr) :
  tag = [] \/ tag = py "json" ->
  loads (pre ++ Re.ticks ++ tag ++ [10] ++ rest) = None.
Proof.
  intros Htag.
  destruct (loads _) as [v|] eqn:E; [|reflexivity].
  apply loads_ticks_quoted in E. now apply fence_not_quoted in E.
Qed.

Lemma search_whole_fails (text g : pystr) :
  Re.search text = Some g -> loads text = None.
Proof.
  intros H.
  destruct (search_sound _ _ H) as (pre & tag & post & Htag & -> & _).
  now apply opening_fence_not_json.
Qed.

(** X2: when the pattern finds a fence, the text as a whole is not JSON: a
    backtick can stand in a JSON text only inside a string, and the line
    feed after the opening fence cannot.  So the result is what the interior
    parses to, or else the fallback record. *)
Theorem fence_excludes_whole_text (text g : pystr) :
  Re.search text = Some g ->
  loads text = None
  /\ extract_json_from_response text
     = match loads g with Some v => v | None => fallback text end.
Proof.
  intros H. pose proof (search_whole_fails _ _ H) as Hw.
  split; [exact Hw|].
  unfold extract_json_from_response. now rewrite H, Hw.
Qed.

Lemma fence_excludes_whole_text_witness :
  loads Fixture.fenced_json = None
  /\ extract_json_from_response Fixture.fenced_json = JObj [].
Proof.
  exact (fence_excludes_whole_text Fixture.fenced_json (py "{}") eq_refl).
Defined.

(** X1: a reply that is JSON as a whole is returned as parsed: the pattern
    cannot match inside it. *)
Theorem valid_json_reply_is_returned (text : pystr) (v : json) :
  loads text = Some v -> extract_json_from_response text = v.
Proof.
  intros H. unfold extract_json_from_response.
  destruct (Re.search text) as [g|] eqn:Es.
  - rewrite (search_whole_fails _ _ Es) in H. discriminate.
  - now rewrite H.
Qed.

Lemma valid_json_reply_is_returned_witness :
  extract_json_from_response (py " [1, 2] ") = JArr [JInt 1; JInt 2].
Proof.
  exact (valid_json_reply_is_returned (py " [1, 2] ") _ eq_refl).
Defined.

(** *** The pattern, read as a description of the text *)

Lemma strip_prefix_app_some (p s r t : pystr) :
  strip_prefix p s = Some r -> strip_prefix p (s ++ t) = Some (r ++ t).
Proof.
  revert s. induction p as [|x p IH]; intros s H; simpl in *.
  - now injection H as ->.
  - destruct s as [|y s]; [discriminate|]. simpl.
    destruct (x =? y); [now apply IH | discriminate].
Qed.

(** The lazy group holds no closing: the split is at the first one. *)
Lemma split_first_minimal (pat s a b : pystr) :
  pat <> [] ->
  Re.split_first pat s = Some (a, b) -> Re.split_first pat a = None.
Proof.
  intros Hne. revert a.
  assert (Hnil : Re.split_first pat [] = None).
  { destruct pat; [congruence | reflexivity]. }
  induction s as [|c t IH]; intros a H.
  - unfold Re.split_first in H.
    destruct (strip_prefix pat []); [|discriminate].
    now injection H as <- <-.
  - unfold Re.split_first in H; fold Re.split_first in H.
    destruct (strip_prefix pat (c :: t)) as [r|] eqn:Ep.
    + now injection H as <- <-.
    + destruct (Re.split_first pat t) as [[a' b']|] eqn:Et; [|discriminate].
      injection H as <- <-.
      unfold Re.split_first; fold Re.split_first.
      destruct (strip_prefix pat (c :: a')) as [r|] eqn:Ea.
      * apply split_first_some in Et. subst t.
        apply (strip_prefix_app_some _ _ _ (pat ++ b')) in Ea.
        simpl in Ea. simpl in Ep. congruence.
      * now rewrite (IH a' eq_refl).
Qed.

Lemma match_here_group (s g : pystr) :
  Re.match_here s = Some g -> contains Re.closing g = false.
Proof.
  unfold Re.match_here, contains. intros H.
  destruct (strip_prefix Re.ticks s) as [r|]; [|discriminate].
  assert (G : forall body, option_map fst (Re.split_first Re.closing body)
                           = Some g -> Re.split_first Re.closing g = None).
  { intros body Hb.
    destruct (Re.split_first Re.closing body) as [[a b]|] eqn:E; [|discriminate].
    injection Hb as <-. eapply split_first_minimal; [discriminate | exact E]. }
  destruct (strip_prefix (py "json") r) as [r2|].
  - destruct r2 as [|c body]; [discriminate|].
    destruct (c =? 10); [|discriminate]. now rewrite (G _ H).
  - destruct r as [|c body]; [discriminate|].
    destruct (c =? 10); [|discriminate]. now rewrite (G _ H).
Qed.

Lemma search_skipn (n : nat) (s : pystr) :
  (forall i, (i < n)%nat -> Re.match_here (skipn i s) = None) ->
  Re.search s = Re.search (skipn n s).
Proof.
  revert s. induction n as [|n IH]; intros s H; [reflexivity|].
  destruct s as [|c t]; [reflexivity|].
  unfold Re.search at 1; fold Re.search.
  pose proof (H 0%nat ltac:(lia)) as H0.
  change (skipn 0 (c :: t)) with (c :: t) in H0. rewrite H0.
  change (skipn (S n) (c :: t)) with (skipn n t).
  apply IH. intros i Hi. apply (H (S i)). lia.
Qed.

Lemma skipn_app_length {A} (a b : list A) : skipn (List.length a) (a ++ b) = b.
Proof. induction a; simpl; auto. Qed.

Lemma match_here_iff (s : pystr) :
  Re.match_here s <> None <-> fence_at_head s.
Proof.
  split.
  - intros H. destruct (Re.match_here s) as [g|] eqn:E; [|contradiction].
    destruct (match_here_sound _ _ E) as (tag & post & Htag & ->).
    now exists tag, g, post.
  - intros (tag & g & post & Htag & ->). now apply match_here_complete.
Qed.

(** X3: the search returns [g] exactly when the text is some prefix, three
    backticks, no tag or the tag [json], a line feed, [g], a line feed and
    three backticks, and a rest, where [g] holds no line feed followed by
    three backticks and no whole fence begins earlier in the text. *)
Theorem search_characterised (text g : pystr) :
  Re.search text = Some g <->
  exists pre tag post,
    (tag = [] \/ tag = py "json")
    /\ text = pre ++ Re.ticks ++ tag ++ [10] ++ g ++ Re.closing ++ post
    /\ contains Re.closing g = false
    /\ forall i, (i < List.length pre)%nat -> ~ fence_at_head (skipn i text).
Proof.
  split.
  - intros H.
    destruct (search_sound _ _ H) as (pre & tag & post & Htag & E & Hmin).
    exists pre, tag, post. repeat split; try assumption.
    + pose proof (search_skipn (List.length pre) text Hmin) as Hs.
      rewrite H in Hs. rewrite E, skipn_app_length in Hs.
      destruct (Re.match_here (Re.ticks ++ tag ++ [10] ++ g ++ Re.closing ++ post))
        as [g'|] eqn:Em.
      * rewrite (search_of_match _ _ Em) in Hs. injection Hs as ->.
        now apply match_here_group in Em.
      * now apply match_here_complete in Em.
    + intros i Hi Hf. apply match_here_iff in Hf. now apply Hf, Hmin.
  - intros (pre & tag & post & Htag & E & Hg & Hmin).
    rewrite (search_skipn (List.length pre) text).
    + rewrite E, skipn_app_length.
      now apply search_of_match, match_here_fence.
    + intros i Hi. specialize (Hmin i Hi).
      destruct (Re.match_here (skipn i text)) eqn:Em; [|reflexivity].
      exfalso. apply Hmin, match_here_iff. now rewrite Em.
Qed.

Lemma search_characterised_witness :
  Re.search Fixture.fenced_json = Some (py "{}").
Proof.
  apply (proj2 (search_characterised Fixture.fenced_json (py "{}"))).
  exists (py "Here you go: "), (py "json"), (py " Hope this helps.").
  split; [now right|]. split; [reflexivity|]. split; [reflexivity|].
  intros i Hi Hf. apply match_here_iff in Hf. apply Hf. clear Hf.
  do 13 (destruct i as [|i]; [reflexivity|]).
  cbn in Hi. lia.
Defined.

(** *** Replies that end in the fallback *)

Lemma contains_app (pat a b : pystr) : contains pat (a ++ pat ++ b) = true.
Proof.
  unfold contains. pose proof (split_first_finds pat a b) as H.
  now destruct (Re.split_first pat (a ++ pat ++ b)).
Qed.

Lemma search_needs_closing (s : pystr) :
  contains Re.closing s = false -> Re.search s = None.
Proof.
  intros H. destruct (Re.search s) as [g|] eqn:E; [|reflexivity].
  destruct (search_sound _ _ E) as (pre & tag & post & _ & -> & _).
  replace (pre ++ Re.ticks ++ tag ++ [10] ++ g ++ Re.closing ++ post)
    with ((pre ++ Re.ticks ++ tag ++ [10] ++ g) ++ Re.closing ++ post) in H
    by (now rewrite <- !app_assoc).
  now rewrite contains_app in H.
Qed.

Lemma search_needs_ticks (s : pystr) :
  contains Re.ticks s = false -> Re.search s = None.
Proof.
  intros H. destruct (Re.search s) as [g|] eqn:E; [|reflexivity].
  destruct (search_sound _ _ E) as (pre & tag & post & _ & -> & _).
  now rewrite contains_app in H.
Qed.

Lemma search_step (c : N) (t : pystr) :
  Re.match_here (c :: t) = None -> Re.search (c :: t) = Re.search t.
Proof. intros H. unfold Re.search; fold Re.search. now rewrite H. Qed.

(** An opening fence whose closing never comes is no match. *)
Lemma search_unclosed (tag body : pystr) :
  tag = [] \/ tag = py "json" ->
  contains Re.closing body = false ->
  Re.search (Re.ticks ++ tag ++ [10] ++ body) = None.
Proof.
  intros Htag Hb. pose proof (search_needs_closing _ Hb) as Hs.
  apply contains_false in Hb.
  destruct Htag as [-> | ->].
  - change (Re.ticks ++ [] ++ [10] ++ body) with (96 :: 96 :: 96 :: 10 :: body).
    assert (M : Re.match_here (96 :: 96 :: 96 :: 10 :: body) = None).
    { change (Re.match_here (96 :: 96 :: 96 :: 10 :: body))
        with (option_map fst (Re.split_first Re.closing body)).
      now rewrite Hb. }
    rewrite (search_step _ _ M).
    do 3 (rewrite search_step by reflexivity). exact Hs.
  - change (Re.ticks ++ py "json" ++ [10] ++ body)
      with (96 :: 96 :: 96 :: 106 :: 115 :: 111 :: 110 :: 10 :: body).
    assert (M : Re.match_here
                  (96 :: 96 :: 96 :: 106 :: 115 :: 111 :: 110 :: 10 :: body)
                = None).
    { change (Re.match_here
                (96 :: 96 :: 96 :: 106 :: 115 :: 111 :: 110 :: 10 :: body))
        with (option_map fst (Re.split_first Re.closing body)).
      now rewrite Hb. }
    rewrite (search_step _ _ M).
    do 7 (rewrite search_step by reflexivity). exact Hs.
Qed.

(** X4: a reply whose fence is opened and never closed, as when the reply
    is cut short, gives the fallback record, even when the interior read so
    far is JSON. *)
Theorem unclosed_fence_falls_back (pre tag body : pystr) :
  contains Re.ticks pre = false ->
  tag = [] \/ tag = py "json" ->
  contains Re.closing body = false ->
  extract_json_from_response (pre ++ Re.ticks ++ tag ++ [10] ++ body)
  = fallback (pre ++ Re.ticks ++ tag ++ [10] ++ body).
Proof.
  intros Hpre Htag Hb. unfold extract_json_from_response.
  rewrite (opening_fence_not_json pre tag body Htag).
  rewrite (search_skips pre (tag ++ [10] ++ body) Hpre).
  now rewrite (search_unclosed tag body Htag Hb).
Qed.

Lemma unclosed_fence_falls_back_witness :
  loads (py "{}") = Some (JObj [])
  /\ extract_json_from_response (py "Result: " ++ Re.ticks ++ py "json" ++ [10] ++ py "{}")
     = fallback (py "Result: " ++ Re.ticks ++ py "json" ++ [10] ++ py "{}").
Proof.
  split; [reflexivity|].
  apply (unclosed_fence_falls_back (py "Result: ") (py "json") (py "{}"));
    [reflexivity | now right | reflexivity].
Defined.

Lemma literal_mismatch (lit : string) (v : json) (c x : N) (l rest : pystr) :
  py lit = x :: l -> (c =? x) = false -> literal lit v (c :: rest) = None.
Proof.
  intros Hl Hc. unfold literal. rewrite Hl. cbn [strip_prefix].
  now rewrite N.eqb_sym, Hc.
Qed.

Lemma scan_needs_json_start (fuel : nat) (c : N) (rest : pystr) :
  json_start c = false -> scan_once fuel (c :: rest) = None.
Proof.
  unfold json_start. intros H.
  repeat (apply orb_false_elim in H as [H ?]).
  assert (H48 : (c =? 48) = false).
  { destruct (c =? 48) eqn:E; [|reflexivity].
    apply N.eqb_eq in E. subst c. discriminate. }
  destruct fuel as [|fuel]; [reflexivity|]. cbn [scan_once].
  repeat match goal with E : (c =? _) = false |- _ => rewrite E; revert E end.
  intros. unfold scan_scalar.
  rewrite (literal_mismatch "null" _ c 110 (py "ull")) by (reflexivity || assumption).
  rewrite (literal_mismatch "true" _ c 116 (py "rue")) by (reflexivity || assumption).
  rewrite (literal_mismatch "false" _ c 102 (py "alse")) by (reflexivity || assumption).
  rewrite (literal_mismatch "NaN" _ c 78 (py "aN")) by (reflexivity || assumption).
  rewrite (literal_mismatch "Infinity" _ c 73 (py "nfinity")) by (reflexivity || assumption).
  rewrite (literal_mismatch "-Infinity" _ c 45 (py "Infinity")) by (reflexivity || assumption).
  unfold match_number, match_integer.
  repeat match goal with
         | E : (c =? _) = false |- _ => rewrite E; revert E
         | E : is_digit c = false |- _ => rewrite E; revert E
         end.
  reflexivity.
Qed.

Lemma loads_none (text : pystr) :
  (forall fuel, scan_once fuel (skip_ws text) = None) -> loads text = None.
Proof.
  intros H. unfold loads.
  destruct text as [|c t]; [now rewrite H|].
  rewrite !H.
  destruct c as [|p]; [reflexivity|].
  repeat (destruct p as [p|p|]; try reflexivity).
Qed.

(** X5: a reply without three backticks in a row whose first character
    after white space cannot begin a JSON value, or that is blank, gives the
    fallback record: prose before the JSON defeats the extraction. *)
Theorem prose_reply_falls_back (text : pystr) :
  contains Re.ticks text = false ->
  match skip_ws text with
  | [] => True
  | c :: _ => json_start c = false
  end ->
  extract_json_from_response text = fallback text.
Proof.
  intros Ht Hc. unfold extract_json_from_response.
  rewrite (search_needs_ticks _ Ht).
  rewrite loads_none; [reflexivity|].
  intros fuel. destruct (skip_ws text) as [|c rest].
  - now destruct fuel.
  - now apply scan_needs_json_start.
Qed.

Lemma prose_reply_falls_back_witness :
  loads (py "{}") = Some (JObj [])
  /\ extract_json_from_response (py "Here is the analysis: {}")
     = fallback (py "Here is the analysis: {}").
Proof.
  split; [reflexivity|].
  apply (prose_reply_falls_back (py "Here is the analysis: {}"));
    reflexivity.
Defined.

End ExtractorExtra.

(* ================================================================= *)
(** ** More on the run, the graph, the prompt and the start *)

Module PipelineExtra.
Import Py Json Eff Agents Main Obs Startup Shape PipelineSpec.
#[local] Open Scope run_scope.

#[local] Arguments create_analysis_prompt : simpl never.
#[local] Arguments extract_json_from_response : simpl never.
#[local] Opaque comparison_template.

(** *** Validation *)

Lemma lstrip_length (s : pystr) : (List.length (lstrip s) <= List.length s)%nat.
Proof.
  induction s as [|c t IH]; simpl; [lia|].
  destruct (isspace c); simpl; lia.
Qed.

Lemma strip_length (s : pystr) : (List.length (strip s) <= List.length s)%nat.
Proof.
  unfold strip, rstrip. rewrite length_rev.
  pose proof (lstrip_length (rev (lstrip s))) as H1.
  rewrite length_rev in H1. pose proof (lstrip_length s). lia.
Qed.

Lemma lstrip_blank (s : pystr) : forallb isspace s = true -> lstrip s = [].
Proof.
  induction s as [|c t IH]; [reflexivity|]. simpl.
  intros H. apply andb_prop in H as [Hc Ht]. now rewrite Hc, IH.
Qed.

(** X6: a text of fewer than fifty characters, and a text of white space
    alone whatever its length, is refused with status 400 before any
    provider call. *)
Theorem short_or_blank_text_is_rejected (env : Env) (request : ArticleRequest)
  (w : World) :
  (List.length (text request) < 50)%nat \/ forallb isspace (text request) = true ->
  analyze_article env request w = (HTTPException 400 too_short, w).
Proof.
  intros H.
  assert (Ha : accepted (text request) = false).
  { unfold accepted, len. apply negb_false_iff, Z.ltb_lt.
    destruct H as [H | H].
    - pose proof (strip_length (text request)). lia.
    - unfold strip. rewrite (lstrip_blank _ H). cbn. lia. }
  unfold analyze_article. now rewrite (analyze_text_rejects _ _ _ _ Ha).
Qed.

Lemma short_or_blank_text_is_rejected_witness :
  analyze_article Fixture.all_refuse
    {| text := repeat 32 80; req_topic := None |} world0
  = (HTTPException 400 too_short, world0).
Proof.
  apply short_or_blank_text_is_rejected. right. reflexivity.
Defined.

(** *** The run as a whole *)

(** The world a run leaves, with the calls it counts. *)
Lemma reference_world (env : Env) (text : pystr) (topic : option pystr) :
  exists n p1 v1 v2 p3 v3,
    (n <= 6)%nat
    /\ snd (pipeline_reference env text topic world0)
       = {| calls := Nat.div2 (S n);
            trace := firstn n (complete_trace p1 v1 p1 v2 p3 v3) |}
    /\ (forall body, fst (pipeline_reference env text topic world0) = Ok body ->
        n = 6%nat).
Proof.
  unfold pipeline_reference.
  destruct (format_messages env (create_analysis_prompt text topic) [])
    as [p1|e].
  2:{ exists 0%nat, [], JNull, JNull, [], JNull.
      repeat split; [lia | discriminate]. }
  destruct (llm_invoke env _ gpt p1) as [r1|e].
  2:{ exists 1%nat, p1, JNull, JNull, [], JNull.
      repeat split; [lia | discriminate]. }
  cbv zeta.
  destruct (llm_invoke env _ claude p1) as [r2|e].
  2:{ exists 3%nat, p1, (extract_json_from_response r1), JNull, [], JNull.
      repeat split; [lia | discriminate]. }
  destruct (format_messages env comparison_template _) as [p3|e].
  2:{ exists 4%nat, p1, (extract_json_from_response r1),
        (extract_json_from_response r2), [], JNull.
      repeat split; [lia | discriminate]. }
  destruct (llm_invoke env _ gpt p3) as [r3|e].
  2:{ exists 5%nat, p1, (extract_json_from_response r1),
        (extract_json_from_response r2), p3, JNull.
      repeat split; [lia | discriminate]. }
  exists 6%nat, p1, (extract_json_from_response r1),
    (extract_json_from_response r2), p3, (extract_json_from_response r3).
  repeat split. lia.
Qed.

Lemma run_world (env : Env) (request : ArticleRequest) :
  exists n p1 v1 v2 p3 v3,
    (n <= 6)%nat
    /\ snd (analyze_article env request world0)
       = {| calls := Nat.div2 (S n);
            trace := firstn n (complete_trace p1 v1 p1 v2 p3 v3) |}
    /\ (forall body, fst (analyze_article env request world0) = Returned body ->
        n = 6%nat).
Proof.
  destruct (accepted (text request)) eqn:Ha.
  - destruct (reference_world env (text request) (req_topic request))
      as (n & p1 & v1 & v2 & p3 & v3 & Hn & Hw & Hok).
    exists n, p1, v1, v2, p3, v3. split; [exact Hn|].
    rewrite analyze_article_world, (run_refines _ _ _ _ Ha).
    split; [exact Hw|].
    intros body Hb. rewrite (analyze_article_accepted _ _ _ Ha) in Hb.
    destruct (pipeline_reference env (text request) (req_topic request) world0)
      as [[b|e] w'] eqn:E.
    + now apply (Hok b).
    + destruct e; discriminate.
  - exists 0%nat, [], JNull, JNull, [], JNull. split; [lia|].
    unfold analyze_article. rewrite (analyze_text_rejects _ _ _ _ Ha).
    repeat split. discriminate.
Qed.

Lemma in_firstn {A} (n : nat) (l : list A) (x : A) :
  In x (firstn n l) -> In x l.
Proof.
  revert l. induction n as [|n IH]; intros [|y l] H; simpl in *; try contradiction.
  destruct H as [H | H]; [now left | right; now apply IH].
Qed.

(** X7: a request makes as many provider calls as its trace holds, three at
    most and exactly three when a body is returned, each to one of the two
    models of the source with temperature zero. *)
Theorem provider_calls_are_bounded (env : Env) (request : ArticleRequest) :
  let out := fst (analyze_article env request world0) in
  let w := snd (analyze_article env request world0) in
  calls w = invokes (trace w)
  /\ (calls w <= 3)%nat
  /\ (forall body, out = Returned body -> calls w = 3%nat)
  /\ (forall llm p, In (Invoke llm p) (trace w) ->
        temperature llm = 0%Z
        /\ (llm = ChatOpenAI (py "gpt-4o-mini") 0
            \/ llm = ChatAnthropic (py "claude-3-5-sonnet-latest") 0)).
Proof.
  intros out w. subst out w.
  destruct (run_world env request)
    as (n & p1 & v1 & v2 & p3 & v3 & Hn & -> & Hok).
  cbn [calls trace].
  split; [|split; [|split]].
  - do 7 (destruct n as [|n]; [reflexivity|]). lia.
  - do 7 (destruct n as [|n]; [cbn; lia|]). lia.
  - intros body Hb. now rewrite (Hok body Hb).
  - intros llm p Hin. apply in_firstn in Hin. unfold complete_trace in Hin.
    cbn [In] in Hin.
    repeat (destruct Hin as [Hin | Hin];
            [first [ discriminate Hin
                   | injection Hin as <- _; split;
                     [reflexivity | first [now left | now right]] ] |]).
    contradiction.
Qed.

(** X8: the second provider call is made with the messages of the first:
    both providers are asked the same question. *)
Theorem providers_get_the_same_prompt (env : Env) (request : ArticleRequest)
  (llm1 llm2 : ChatModel) (p1 p2 : pystr) (e : event) (rest : list event) :
  trace (snd (analyze_article env request world0))
  = Invoke llm1 p1 :: e :: Invoke llm2 p2 :: rest ->
  p1 = p2 /\ provider_of llm1 = OpenAI /\ provider_of llm2 = Anthropic.
Proof.
  destruct (run_world env request)
    as (n & q1 & v1 & v2 & q3 & v3 & Hn & -> & _).
  cbn [trace]. unfold complete_trace.
  do 3 (destruct n as [|n]; [discriminate|]).
  cbn [firstn]. intros H. injection H as <- <- _ <- <- _.
  now repeat split.
Qed.

Lemma providers_get_the_same_prompt_witness :
  create_analysis_prompt Fixture.padded None
  = create_analysis_prompt Fixture.padded None
  /\ provider_of gpt = OpenAI /\ provider_of claude = Anthropic.
Proof.
  eapply (providers_get_the_same_prompt Fixture.all_refuse
            {| text := Fixture.padded; req_topic := None |}).
  vm_compute. reflexivity.
Defined.

(** X9: a body is returned only for an accepted text, after all three calls
    have returned, and it holds, under the three keys in their order, the
    extraction of each reply. *)
Theorem returned_body_shape (env : Env) (request : ArticleRequest)
  (body : json) (w : World) :
  analyze_article env request world0 = (Returned body, w) ->
  (50 <= len (strip (text request)))%Z
  /\ exists p1 p3 r1 r2 r3,
      llm_invoke env 0 gpt p1 = Ok r1
      /\ llm_invoke env 1 claude p1 = Ok r2
      /\ llm_invoke env 2 gpt p3 = Ok r3
      /\ body = JObj [ (py "openai_analysis", extract_json_from_response r1);
                       (py "anthropic_analysis", extract_json_from_response r2);
                       (py "final_comparison", extract_json_from_response r3) ]
      /\ calls w = 3%nat.
Proof.
  intros H.
  destruct (accepted (text request)) eqn:Ha.
  2:{ unfold analyze_article in H.
      rewrite (analyze_text_rejects _ _ _ _ Ha) in H. discriminate. }
  split; [now apply accepted_iff|].
  rewrite (analyze_article_accepted _ _ _ Ha) in H.
  unfold pipeline_reference in H. cbn [world0 calls] in H.
  destruct (format_messages env _ []) as [p1|e]; [|destruct e; discriminate].
  destruct (llm_invoke env 0 gpt p1) as [r1|e] eqn:E1; [|destruct e; discriminate].
  cbv zeta in H.
  destruct (llm_invoke env 1 claude p1) as [r2|e] eqn:E2; [|destruct e; discriminate].
  destruct (format_messages env comparison_template _) as [p3|e];
    [|destruct e; discriminate].
  destruct (llm_invoke env 2 gpt p3) as [r3|e] eqn:E3; [|destruct e; discriminate].
  injection H as <- <-.
  exists p1, p3, r1, r2, r3. repeat split; assumption.
Qed.

Lemma returned_body_shape_witness :
  (50 <= len (strip Fixture.text50))%Z
  /\ exists p1 p3 r1 r2 r3,
      llm_invoke Fixture.all_refuse 0 gpt p1 = Ok r1
      /\ llm_invoke Fixture.all_refuse 1 claude p1 = Ok r2
      /\ llm_invoke Fixture.all_refuse 2 gpt p3 = Ok r3
      /\ JObj [ (py "openai_analysis", fallback Fixture.refusal);
                (py "anthropic_analysis", fallback Fixture.refusal);
                (py "final_comparison", fallback Fixture.refusal) ]
         = JObj [ (py "openai_analysis", extract_json_from_response r1);
                  (py "anthropic_analysis", extract_json_from_response r2);
                  (py "final_comparison", extract_json_from_response r3) ]
      /\ calls (snd (analyze_article Fixture.all_refuse
                       {| text := Fixture.text50; req_topic := None |} world0))
         = 3%nat.
Proof.
  apply (returned_body_shape Fixture.all_refuse
           {| text := Fixture.text50; req_topic := None |}).
  vm_compute. reflexivity.
Defined.




(** X11: when the analysis prompt of a request cannot be rendered, no
    provider is called, nothing is assigned and no body is returned. *)
Theorem render_failure_contacts_no_provider (env : Env)
  (request : ArticleRequest) (e : exn) (w : World) :
  format_messages env
    (create_analysis_prompt (text request) (req_topic request)) [] = Raise e ->
  snd (analyze_article env request w) = w
  /\ forall body, fst (analyze_article env request w) <> Returned body.
Proof.
  intros H.
  assert (Ht : exists e', analyze_text env (text request) (req_topic request) w
                          = (Raise e', w)).
  { destruct (accepted (text request)) eqn:Ha.
    - exists e. rewrite (run_refines _ _ _ _ Ha).
      unfold pipeline_reference. now rewrite H.
    - exists (ValueError too_short). now apply analyze_text_rejects. }
  destruct Ht as [e' Ht]. unfold analyze_article. rewrite Ht.
  split; [now destruct e'|]. intros body. now destruct e'.
Qed.

Lemma render_failure_contacts_no_provider_witness :
  snd (analyze_article refusing_renderer
         {| text := Fixture.text50; req_topic := None |} world0) = world0
  /\ forall body,
      fst (analyze_article refusing_renderer
             {| text := Fixture.text50; req_topic := None |} world0)
      <> Returned body.
Proof.
  exact (render_failure_contacts_no_provider refusing_renderer
           {| text := Fixture.text50; req_topic := None |} _ world0 eq_refl).
Defined.

(** *** What a step reads *)

(** X12: the two analysis steps read the article and the topic and nothing
    else; the synthesis reads the two analyses and the topic and nothing
    else, the article in particular. *)
Theorem steps_read_only_their_inputs (env : Env) (s s' : AgentState)
  (w : World) :
  topic s = topic s' ->
  (article s = article s' ->
   forall k, k <> FinalComparison ->
     snd (step_of env k s w) = snd (step_of env k s' w)
     /\ same_result k (fst (step_of env k s w)) (fst (step_of env k s' w)))
  /\ (openai_analysis s = openai_analysis s' ->
      anthropic_analysis s = anthropic_analysis s' ->
      snd (compare_and_summarize env s w) = snd (compare_and_summarize env s' w)
      /\ same_result FinalComparison (fst (compare_and_summarize env s w))
           (fst (compare_and_summarize env s' w))).
Proof.
  intros Ht. split.
  - intros Ha k Hk. rewrite !step_run.
    assert (E : template_of k s = template_of k s')
      by (destruct k; cbn [template_of]; congruence).
    assert (K : kwargs_of env k s = kwargs_of env k s')
      by (destruct k; cbn [kwargs_of]; congruence).
    rewrite E, K.
    destruct (format_messages env _ _) as [p|e]; [|now split].
    destruct (llm_invoke env _ _ p) as [r|e]; [|now split].
    cbv zeta. split; [reflexivity|]. cbn [fst same_result].
    destruct k; reflexivity.
  - intros Ho Han.
    change (compare_and_summarize env) with (step_of env FinalComparison).
    rewrite !step_run.
    cbn [template_of kwargs_of]. unfold get_topic. rewrite Ho, Han, Ht.
    destruct (format_messages env _ _) as [p|e]; [|now split].
    destruct (llm_invoke env _ _ p) as [r|e]; [|now split].
    cbv zeta. now split.
Qed.

Lemma steps_read_only_their_inputs_witness :
  snd (compare_and_summarize Fixture.all_refuse
         (initial_state Fixture.text50 None) world0)
  = snd (compare_and_summarize Fixture.all_refuse
           (initial_state Fixture.padded None) world0).
Proof.
  exact (proj1 (proj2 (steps_read_only_their_inputs Fixture.all_refuse
                         (initial_state Fixture.text50 None)
                         (initial_state Fixture.padded None) world0 eq_refl)
                  eq_refl eq_refl)).
Defined.

(** *** The graph *)

(** X13: the compiled graph runs the three nodes in a row from any state:
    the entry point is the first, every node has an edge to the next node or
    to the end, and an exception of the run is the exception of a node. *)
Theorem compiled_graph_is_the_chain (env : Env) :
  let g := create_analysis_graph env in
  (forall s w,
      graph_invoke g s w =
      (s1 <- analyze_with_openai env s ;;
       s2 <- analyze_with_anthropic env s1 ;;
       compare_and_summarize env s2) w)
  /\ lookup START (edges g) = Some (py "openai_analysis")
  /\ (forall name fn, In (name, fn) (nodes g) ->
        exists next, lookup name (edges g) = Some next
                     /\ (next = END \/ exists fn', lookup next (nodes g) = Some fn'))
  /\ (forall s w e w',
        graph_invoke g s w = (Raise e, w') ->
        analyze_with_openai env s w = (Raise e, w')
        \/ (exists s1 w1, analyze_with_openai env s w = (Ok s1, w1)
              /\ (analyze_with_anthropic env s1 w1 = (Raise e, w')
                  \/ exists s2 w2, analyze_with_anthropic env s1 w1 = (Ok s2, w2)
                       /\ compare_and_summarize env s2 w2 = (Raise e, w')))).
Proof.
  intros g. split; [|split; [|split]].
  - intros s w. exact (graph_is_chain env s w).
  - reflexivity.
  - intros name fn Hin. unfold g, create_analysis_graph in Hin.
    cbn [nodes add_node add_edge set_entry_point set_finish_point empty_graph
         app] in Hin.
    destruct Hin as [H | [H | [H | []]]]; injection H as <- <-.
    + exists (py "anthropic_analysis"). split; [reflexivity|].
      right. now eexists.
    + exists (py "compare"). split; [reflexivity|]. right. now eexists.
    + exists END. split; [reflexivity|]. now left.
  - intros s w e w' H. unfold g in H. rewrite graph_is_chain in H.
    unfold step_of, bind in H.
    destruct (analyze_with_openai env s w) as [[s1|e1] w1].
    + right. exists s1, w1. split; [reflexivity|].
      destruct (analyze_with_anthropic env s1 w1) as [[s2|e2] w2].
      * right. exists s2, w2. now split.
      * left. exact H.
    + left. exact H.
Qed.

(** *** The prompt *)

Lemma topic_context_some (l : pystr) : l <> [] -> topic_context (Some l) = l.
Proof. destruct l; [congruence | reflexivity]. Qed.

(** X14: the prompt determines the article when the topic is known, and the
    topic line when the article is known. *)
Theorem prompt_is_injective_in_each_argument (a a' : pystr)
  (t t' : option pystr) :
  (create_analysis_prompt a t = create_analysis_prompt a' t -> a = a')
  /\ (create_analysis_prompt a t = create_analysis_prompt a t' ->
      topic_context t = topic_context t').
Proof.
  unfold create_analysis_prompt. split; intros H.
  - apply app_inv_head in H. now apply app_inv_tail in H.
  - do 3 apply app_inv_head in H. now apply app_inv_tail in H.
Qed.

Lemma prompt_is_injective_in_each_argument_witness :
  topic_context (Some []) = topic_context None.
Proof.
  exact (proj2 (prompt_is_injective_in_each_argument Fixture.text50
                  Fixture.text50 (Some []) None) eq_refl).
Defined.

(** X15: the article is not delimited in the prompt: an article that holds
    the text of the topic heading gives the prompt of a shorter article with
    a longer topic. *)
Theorem article_can_forge_the_topic_line (x y : pystr) (t : option pystr) :
  create_analysis_prompt (x ++ prompt_before_topic ++ y) t
  = create_analysis_prompt x
      (Some (y ++ prompt_before_topic ++ topic_context t)).
Proof.
  unfold create_analysis_prompt.
  rewrite topic_context_some.
  - now rewrite <- !app_assoc.
  - intros H. apply (f_equal (@List.length N)) in H.
    rewrite !length_app in H.
    assert (L : List.length prompt_before_topic = 28%nat) by reflexivity.
    rewrite L in H. cbn in H. lia.
Qed.

(** *** Start-up *)

(** X16: the check at load time passes exactly when both keys are set to a
    text that is not empty, and otherwise raises the one error, whichever
    key is missing. *)
Theorem startup_needs_both_keys (getenv : pystr -> option pystr) :
  (check_api_keys getenv = Ok tt <->
   exists a b,
     getenv (py "OPENAI_API_KEY") = Some a /\ a <> []
     /\ getenv (py "ANTHROPIC_API_KEY") = Some b /\ b <> [])
  /\ (check_api_keys getenv = Ok tt
      \/ check_api_keys getenv = Raise (OtherException missing_keys)).
Proof.
  unfold check_api_keys.
  destruct (getenv (py "OPENAI_API_KEY")) as [[|c a]|];
    destruct (getenv (py "ANTHROPIC_API_KEY")) as [[|d b]|];
    cbn [truthy negb orb]; (split; [split|]);
    try (intros H; discriminate H);
    try (intros (x & y & H1 & H2 & H3 & H4); congruence);
    try (now right); try (now left).
  intros _. exists (c :: a), (d :: b). repeat split; discriminate.
Qed.

End PipelineExtra.
